(** * pygreynoise: the API client and the output formatters

    A shallow embedding of [greynoise/client.py] (class [GreyNoise]) and of
    [greynoise/cli/formatter.py], and the properties of the request engine,
    the code enrichment, the bulk filtering and the formatter table.

    Conventions of the embedding.
    - Python values that come from or go to JSON are values of type [json];
      [JNull] is Python's [None], [JObj] a [dict] with string keys, [JArr] a
      [list].  Numbers are integers.  The key order of a dict is not
      represented.  A string holds the UTF-8 bytes of its text.
    - An exception is an [error]; a function that may raise returns a
      [res].
    - A method that talks to the server runs in [Exec]: it threads a [world]
      that holds the responses the server is going to give and the requests
      sent so far.
    - The values handled here come from [response.json()], which builds fresh
      trees: no two places of a value share an object, so the in-place updates
      of the source are written as functional updates of the enclosing
      value. *)

From Stdlib Require Import ZArith Ascii.
From stdpp Require Import gmap strings list fin_maps pretty.

Set Warnings "-register-all".
Open Scope Z_scope.

(** ** Values *)

Inductive json :=
| JNull
| JBool (b : bool)
| JNum (n : Z)
| JStr (s : string)
| JArr (l : list json)
| JObj (m : gmap string json).

(** ** Exceptions and the two monads *)

Inductive error :=
| RequestFailure (status_code : Z) (content : string)
| ValueError (msg : string)
| KeyError (key : string)
| TypeError
| JSONDecodeError
| ConnectionError
| RecursionError
| DispatchError (format kind : string).

Inductive res (A : Type) :=
| Ok (a : A)
| Err (e : error).
Arguments Ok {A} a.
Arguments Err {A} e.

#[global] Instance res_ret : MRet res := λ A a, Ok a.
#[global] Instance res_bind : MBind res :=
  λ A B f r, match r with Ok a => f a | Err e => Err e end.
#[global] Instance res_throw : MThrow error res := λ A e, Err e.

(** The server as the client sees it: the responses still to come, in order,
    and the requests issued so far, oldest first. *)
Record http_request := {
  url : string;
  headers : gmap string string;
  timeout : Z;
  params : gmap string json;
  body : option json
}.

(** [json_body] is what [response.json()] returns; [None] when the body is
    not JSON and the call raises. *)
Record http_response := {
  status_code : Z;
  content : string;
  json_body : option json
}.

Record world := {
  pending : list http_response;
  sent : list http_request
}.

Definition Exec (A : Type) : Type := world → res A * world.

#[global] Instance Exec_ret : MRet Exec := λ A a w, (Ok a, w).
#[global] Instance Exec_bind : MBind Exec :=
  λ A B f c w, match c w with
               | (Ok a, w') => f a w'
               | (Err e, w') => (Err e, w')
               end.
#[global] Instance Exec_throw : MThrow error Exec := λ A e w, (Err e, w).

Definition lift {A} (r : res A) : Exec A := λ w, (r, w).

(** ** Python primitives on JSON values *)

(** Truth value of a value in a condition. *)
Definition truthy (v : json) : bool :=
  match v with
  | JNull => false
  | JBool b => b
  | JNum n => negb (n =? 0)
  | JStr s => negb (String.eqb s "")
  | JArr l => match l with [] => false | _ => true end
  | JObj m => match map_to_list m with [] => false | _ => true end
  end.

(** [obj[key]] for a string key. *)
Definition py_getitem (obj : json) (key : string) : res json :=
  match obj with
  | JObj m => match m !! key with
              | Some v => Ok v
              | None => Err (KeyError key)
              end
  | _ => Err TypeError
  end.

(** [obj[key] = v] for a string key. *)
Definition py_setitem (obj : json) (key : string) (v : json) : res json :=
  match obj with
  | JObj m => Ok (JObj (<[key := v]> m))
  | _ => Err TypeError
  end.

(** A string holds the UTF-8 bytes of a text.  A byte [10xxxxxx] continues
    the character that the bytes before it began. *)
Definition is_continuation (c : Ascii.ascii) : bool :=
  (128 <=? Ascii.N_of_ascii c)%N && (Ascii.N_of_ascii c <? 192)%N.

Fixpoint utf8_chars (l cur : list Ascii.ascii) : list (list Ascii.ascii) :=
  match l with
  | [] => match cur with [] => [] | _ => [reverse cur] end
  | c :: l' =>
      if is_continuation c then utf8_chars l' (c :: cur)
      else match cur with
           | [] => utf8_chars l' [c]
           | _ => reverse cur :: utf8_chars l' [c]
           end
  end.

(** The characters of a string, each a string of one character. *)
Definition chars (s : string) : list json :=
  (λ bytes, JStr (String.string_of_list_ascii bytes))
    <$> utf8_chars (String.list_ascii_of_string s) [].

(** The sequence a [for] loop goes through. *)
Definition py_iter (v : json) : res (list json) :=
  match v with
  | JArr l => Ok l
  | JObj m => Ok (JStr <$> (map_to_list m).*1)
  | JStr s => Ok (chars s)
  | _ => Err TypeError
  end.

Definition hashable (v : json) : bool :=
  match v with
  | JArr _ | JObj _ => false
  | _ => true
  end.

(** [a == b] on hashable values: [True == 1] and [False == 0]. *)
Definition py_eqb (a b : json) : bool :=
  match a, b with
  | JNull, JNull => true
  | JBool x, JBool y => Bool.eqb x y
  | JBool x, JNum n | JNum n, JBool x => n =? (if x then 1 else 0)
  | JNum n, JNum k => n =? k
  | JStr s, JStr t => String.eqb s t
  | _, _ => false
  end.

(** Equal hashable values have the same key: a boolean counts as 0 or 1. *)
Definition py_key (v : json) : json :=
  match v with
  | JBool b => JNum (if b then 1 else 0)
  | _ => v
  end.

(** The elements of [set(l)]: of equal elements the first one stays. *)
Fixpoint py_dedup (l : list json) : list json :=
  match l with
  | [] => []
  | x :: l' => x :: filter (λ y, py_eqb x y = false) (py_dedup l')
  end.

Fixpoint mapM {A B} (f : A → res B) (l : list A) : res (list B) :=
  match l with
  | [] => Ok []
  | x :: l' => y ← f x; ys ← mapM f l'; mret (y :: ys)
  end.

Fixpoint filterM {A} (p : A → res bool) (l : list A) : res (list A) :=
  match l with
  | [] => Ok []
  | x :: l' => b ← p x; ys ← filterM p l'; mret (if b : bool then x :: ys else ys)
  end.

(** [sep.join(l)]: every element has to be a string. *)
Definition py_join (sep : string) (l : list json) : res string :=
  ss ← mapM (λ v, match v with JStr s => Ok s | _ => Err TypeError end) l;
  mret (String.concat sep ss).

(** ** Stub servers and values of the end-to-end scenarios *)

Definition ok_response (v : json) : http_response :=
  {| status_code := 200; content := ""; json_body := Some v |}.

Definition server (responses : list http_response) : world :=
  {| pending := responses; sent := [] |}.

Definition noise_page (noise_ips : list string) (complete : bool) : http_response :=
  ok_response (JObj (<["complete" := JBool complete]>
                       (<["noise_ips" := JArr (JStr <$> noise_ips)]> ∅))).

(** [str] on the scalars that are not numbers. *)
Definition scalar_repr (v : json) : string :=
  match v with
  | JNull => "None"
  | JBool true => "True"
  | JBool false => "False"
  | _ => ""
  end.

(** A validator of dotted IPv4 addresses: four fields of one to three
    digits, each at most 255. *)
Fixpoint dotted_fields (l cur : list Ascii.ascii) : list (list Ascii.ascii) :=
  match l with
  | [] => [reverse cur]
  | c :: l' =>
      if Ascii.eqb c "."%char then reverse cur :: dotted_fields l' []
      else dotted_fields l' (c :: cur)
  end.

Definition is_digit (c : Ascii.ascii) : bool :=
  (48 <=? Ascii.N_of_ascii c)%N && (Ascii.N_of_ascii c <=? 57)%N.

Definition is_octet (field : list Ascii.ascii) : bool :=
  if forallb is_digit field && (1 <=? length field)%nat && (length field <=? 3)%nat
  then (foldl (λ acc c, (10 * acc + (Ascii.N_of_ascii c - 48))%N) 0%N field <=? 255)%N
  else false.

Definition is_ipv4 (v : json) : bool :=
  match v with
  | JStr s =>
      let fields := dotted_fields (String.list_ascii_of_string s) [] in
      (length fields =? 4)%nat && forallb is_octet fields
  | _ => false
  end.

Definition quick_0x01 : gmap string json :=
  <["ip" := JStr "8.8.8.8"]> (<["code" := JStr "0x01"]> ∅).

Definition paris : gmap string json :=
  <["country_code" := JStr "FR"]>
    (<["country" := JStr "France"]> (<["city" := JStr "Paris"]> ∅)).

Definition paris_context : gmap string json :=
  <["metadata" := JObj paris]> (<["seen" := JBool true]> ∅).

Definition unavailable : http_response :=
  {| status_code := 503; content := "unavailable"; json_body := None |}.

(** A metadata record whose city is [null], and a template engine and a
    markup that answer with their input. *)
Definition france : gmap string json :=
  <["country_code" := JStr "FR"]>
    (<["country" := JStr "France"]> (<["city" := JNull]> ∅)).

Definition echo_render : string → string → json → bool → res string :=
  λ template _ _ _, Ok template.

(** A formatter takes a result and the verbose flag. *)
Abbreviation formatter := (json → bool → res string).

Section Program.

(** What the interpreter and the modules outside these two files
    provide. *)

(** [str(v)] of a value that is neither a string nor an integer. *)
Variable py_repr : json → string.

(** The order in which the elements of a set are listed.  Python leaves it
    open; all that is known is that nothing is lost or added. *)
Variable set_order : list json → list json.
Hypothesis set_order_perm : ∀ l, set_order l ≡ₚ l.

(** The depth of calls the interpreter allows. *)
Variable recursion_limit : nat.

(** [greynoise.util]: whether a value is a well-formed IPv4 or IPv6
    address, whether a string is a [YYYY-MM-DD] date of the calendar. *)
Variable valid_ip : json → bool.
Variable valid_date : string → bool.

Variable api_key : string.

(** ["{}".format(v)]. *)
Definition py_format (v : json) : string :=
  match v with
  | JStr s => s
  | JNum n => pretty n
  | _ => py_repr v
  end.

(** [list(set(v))]. *)
Definition py_list_set (v : json) : res (list json) :=
  items ← py_iter v;
  if forallb hashable items then Ok (set_order (py_dedup items))
  else Err TypeError.

(** Modelled from the spec: [greynoise.util.validate_ip], which is not
    among the sources.  It returns true on a well-formed address; on
    another value it raises in strict mode and returns false otherwise. *)
Definition validate_ip (ip_address : json) (strict : bool) : res bool :=
  if valid_ip ip_address then Ok true
  else if strict then Err (ValueError "Invalid IP address")
  else Ok false.

(** Modelled from the spec: [greynoise.util.validate_date], which is not
    among the sources.  It raises unless the string is a date. *)
Definition validate_date (date : string) : res unit :=
  if valid_date date then Ok ()
  else Err (ValueError "Invalid date")%string.

(** ** class GreyNoise *)

Definition BASE_URL : string := "https://enterprise.api.greynoise.io".
Definition CLIENT_VERSION : Z := 1.
Definition API_VERSION : string := "v2".
Definition EP_NOISE_BULK : string := "noise/bulk".
Definition EP_NOISE_BULK_DATE (date : string) : string := "noise/bulk/" +:+ date.
Definition EP_NOISE_QUICK (ip_address : json) : string :=
  "noise/quick/" +:+ py_format ip_address.
Definition EP_NOISE_MULTI : string := "noise/multi/quick".
Definition EP_NOISE_CONTEXT (ip_address : json) : string :=
  "noise/context/" +:+ py_format ip_address.
Definition UNKNOWN_CODE_MESSAGE (code : json) : string :=
  "Code message unknown: " +:+ py_format code.

Definition CODE_MESSAGES : gmap string string :=
  list_to_map [
    ("0x00", "IP has never been observed scanning the Internet");
    ("0x01", "IP has been observed by the GreyNoise sensor network");
    ("0x02", "IP has been observed scanning the GreyNoise sensor network, "
             +:+ "but has not completed a full connection, meaning this can be spoofed");
    ("0x03", "IP is adjacent to another host that has been directly observed "
             +:+ "by the GreyNoise sensor network");
    ("0x04", "RESERVED");
    ("0x05", "IP is commonly spoofed in Internet-scan activity");
    ("0x06", "IP has been observed as noise, but this host belongs to a cloud provider "
             +:+ "where IPs can be cycled frequently");
    ("0x07", "IP is invalid");
    ("0x08", "IP was classified as noise, but has not been observed "
             +:+ "engaging in Internet-wide scans or attacks in over 60 days")
  ]%string.

(** The keys of [CODE_MESSAGES]. *)
Definition known_codes : list string :=
  ["0x00"; "0x01"; "0x02"; "0x03"; "0x04"; "0x05"; "0x06"; "0x07"; "0x08"]%string.

(** [requests.get]: the request is recorded and the next response of the
    server is taken; with no response left the transport fails. *)
Definition requests_get (req : http_request) : Exec http_response :=
  λ w,
    let w' := {| pending := tail (pending w); sent := sent w ++ [req] |} in
    match pending w with
    | [] => (Err ConnectionError, w')
    | response :: _ => (Ok response, w')
    end.

Definition response_json (response : http_response) : res json :=
  match json_body response with
  | Some v => Ok v
  | None => Err JSONDecodeError
  end.

(** [x in range(lo, hi)] for an integer [x]. *)
Definition in_range (lo hi x : Z) : bool := (lo <=? x) && (x <? hi).

Definition _request (endpoint : string) (params : option (gmap string json))
    (json_ : option json) : Exec json :=
  let params := default ∅ params in
  let headers : gmap string string :=
    <["key" := api_key]>
      (<["X-Request-Client" := "pyGreyNoise v" +:+ py_format (JNum CLIENT_VERSION)]> ∅) in
  let url := String.concat "/" [BASE_URL; API_VERSION; endpoint] in
  response ← requests_get
    {| url := url; headers := headers; timeout := 7; params := params; body := json_ |};
  if negb (in_range 200 299 (status_code response)) then
    mthrow (RequestFailure (status_code response) (content response))
  else lift (response_json response).

(** The request that [_request] hands to [requests.get]. *)
Definition request_for (endpoint : string) (params : option (gmap string json))
    (json_ : option json) : http_request :=
  {| url := BASE_URL +:+ "/" +:+ API_VERSION +:+ "/" +:+ endpoint;
     headers := <["key" := api_key]> (<["X-Request-Client" := "pyGreyNoise v1"]> ∅);
     timeout := 7;
     params := default ∅ params;
     body := json_ |}.

(** The world after one call of [requests.get]. *)
Definition after_request (req : http_request) (w : world) : world :=
  {| pending := tail (pending w); sent := sent w ++ [req] |}.

(** The dict the recursive driver is given. *)
Record recurse_config := {
  cfg_endpoint : string;
  cfg_params : gmap string json;
  cfg_results : list json;
  cfg_data_key : string
}.

(** [_recurse] returns its value and the dict [config] as it leaves it.  A
    call deeper than the interpreter allows raises. *)
Fixpoint _recurse (depth : nat) (config : recurse_config) (breaker : json)
    : Exec (json * recurse_config) :=
  match depth with
  | O => mthrow RecursionError
  | S depth =>
      let results := JNull in
      if truthy breaker then mret (results, config)
      else
        response ← _request (cfg_endpoint config) (Some (cfg_params config)) None;
        complete ← lift (py_getitem response "complete");
        if negb (truthy complete) then
          let config :=
            {| cfg_endpoint := cfg_endpoint config;
               cfg_params := cfg_params config;
               cfg_results := cfg_results config ++ [JStr (cfg_data_key config)];
               cfg_data_key := cfg_data_key config |} in
          r ← _recurse depth config complete;
          mret (JNull, r.2)
        else mret (JNull, config)
  end.

(** [date] is [None] or a string; [if date] holds for a string that is not
    empty. *)
Definition get_noise (date : option string) (recurse : bool) : Exec json :=
  let results : gmap string json := ∅ in
  endpoint ← lift (match date with
                   | Some d =>
                       if truthy (JStr d) then
                         _ ← validate_date d; mret (EP_NOISE_BULK_DATE d)
                       else mret EP_NOISE_BULK
                   | None => mret EP_NOISE_BULK
                   end);
  if recurse then
    let config :=
      {| cfg_endpoint := endpoint; cfg_params := ∅;
         cfg_results := []; cfg_data_key := "noise_ips" |} in
    r ← _recurse recursion_limit config (JBool false);
    mret r.1
  else
    response ← _request endpoint None None;
    noise_ips ← lift (py_getitem response "noise_ips");
    ips ← lift (py_list_set noise_ips);
    let results := <["results" := JArr ips]> results in
    let results := <["result_count" := JNum (Z.of_nat (length ips))]> results in
    mret (JObj results).

(** The endpoint that [get_noise] asks once the date has passed. *)
Definition noise_endpoint (date : option string) : string :=
  match date with
  | Some d => if truthy (JStr d) then EP_NOISE_BULK_DATE d else EP_NOISE_BULK
  | None => EP_NOISE_BULK
  end.

(** A date that [get_noise] lets pass: none, the empty string, or a string
    that [validate_date] accepts. *)
Definition date_passes (date : option string) : Prop :=
  ∀ d, date = Some d → truthy (JStr d) = true → validate_date d = Ok ().

(** A page of the bulk dump: a response with a status that passes and a
    JSON object with the fields [noise_ips] and [complete]. *)
Definition is_page (complete : bool) (noise_ips : list json)
    (response : http_response) : Prop :=
  200 ≤ status_code response < 299
  ∧ ∃ m, json_body response = Some (JObj m)
         ∧ m !! "noise_ips" = Some (JArr noise_ips)
         ∧ m !! "complete" = Some (JBool complete).

(** [CODE_MESSAGES.get(code, UNKNOWN_CODE_MESSAGE.format(code))]: a list or
    a dict cannot be looked up in a dict. *)
Definition code_message (code : json) : res string :=
  let unknown := UNKNOWN_CODE_MESSAGE code in
  match code with
  | JStr s => Ok (default unknown (CODE_MESSAGES !! s))
  | JArr _ | JObj _ => Err TypeError
  | _ => Ok unknown
  end.

(** The three lines that both status operations run on a result. *)
Definition enrich (result : json) : res json :=
  code ← py_getitem result "code";
  message ← code_message code;
  py_setitem result "code_message" (JStr message).

Definition get_noise_status (ip_address : json) : Exec json :=
  _ ← lift (validate_ip ip_address true);
  let endpoint := EP_NOISE_QUICK ip_address in
  result ← _request endpoint None None;
  lift (enrich result).

(** A list is the only input accepted.  The loop updates the elements of
    a list in place; the strings another iterable yields cannot be
    indexed by ["code"]. *)
Definition get_noise_status_bulk (ip_addresses : json) : Exec json :=
  match ip_addresses with
  | JArr ip_addresses =>
      ip_addresses ← lift (filterM (λ ip_address, validate_ip ip_address false)
                                   ip_addresses);
      results ← _request EP_NOISE_MULTI None
                  (Some (JObj (<["ips" := JArr ip_addresses]> ∅)));
      items ← lift (py_iter results);
      items ← lift (mapM enrich items);
      mret (match results with JArr _ => JArr items | _ => results end)
  | _ => mthrow (ValueError "`ip_addresses` must be a list")
  end.

Definition get_context (ip_address : json) : Exec json :=
  _ ← lift (validate_ip ip_address true);
  let endpoint := EP_NOISE_CONTEXT ip_address in
  response ← _request endpoint None None;
  mret response.

(** ** greynoise/cli/formatter.py *)

(** The libraries the formatters call: [json.dumps(v, indent, sort_keys)],
    [dicttoxml], [parseString(s).toprettyxml()], the rendering of a Jinja
    template of the package (template name, name of its variable, value,
    verbose flag) and the conversion of ANSI markup. *)
Variable json_dumps : json → Z → bool → string.
Variable dicttoxml : json → string.
Variable toprettyxml : string → res string.
Variable render : string → string → json → bool → res string.
Variable ANSI_MARKUP : string → res string.

Definition colored_output (function : formatter) : formatter :=
  λ result verbose,
    output ← function result verbose;
    ANSI_MARKUP output.

Definition json_formatter : formatter :=
  λ result _verbose, Ok (json_dumps result 4 true).

Definition xml_formatter : formatter :=
  λ result _verbose, toprettyxml (dicttoxml result).

Definition get_location (metadata : json) : res string :=
  city ← py_getitem metadata "city";
  country ← py_getitem metadata "country";
  country_code ← py_getitem metadata "country_code";
  let location : list json := [] in
  let location :=
    if truthy city then location ++ [JStr (py_format city +:+ ",")]
    else location in
  let location :=
    if truthy country then location ++ [country] else location in
  let location :=
    if truthy country_code
    then location ++ [JStr ("(" +:+ py_format country_code +:+ ")")]
    else location in
  py_join " " location.

(** The block [if ip_context["seen"]: ...] of the two renderers that
    derive a location; it returns the record as the block leaves it. *)
Definition add_location (ip_context : json) : res json :=
  seen ← py_getitem ip_context "seen";
  if truthy seen then
    metadata ← py_getitem ip_context "metadata";
    location ← get_location metadata;
    metadata ← py_setitem metadata "location" (JStr location);
    py_setitem ip_context "metadata" metadata
  else Ok ip_context.

Definition ip_context_formatter : formatter :=
  colored_output (λ ip_context verbose,
    ip_context ← add_location ip_context;
    render "ip_context.txt.j2" "ip_context" ip_context verbose).

Definition ip_quick_check_formatter : formatter :=
  colored_output (λ ip_quick_check verbose,
    render "ip_quick_check.txt.j2" "ip_quick_check" ip_quick_check verbose).

Definition ip_multi_quick_check_formatter : formatter :=
  colored_output (λ ip_multi_quick_check verbose,
    render "ip_multi_quick_check.txt.j2" "ip_multi_quick_check"
           ip_multi_quick_check verbose).

(** [item in container] for a string [item]. *)
Definition py_contains (container : json) (item : string) : res bool :=
  match container with
  | JObj m => Ok (bool_decide (is_Some (m !! item)))
  | JArr l => Ok (existsb (py_eqb (JStr item)) l)
  | JStr s => Ok (bool_decide (is_Some (String.index 0 item s)))
  | _ => Err TypeError
  end.

(** The block [if "data" in gnql: ...]; it returns [gnql] as the block
    leaves it. *)
Definition gnql_locations (gnql : json) : res json :=
  has_data ← py_contains gnql "data";
  if has_data : bool then
    data ← py_getitem gnql "data";
    items ← py_iter data;
    items ← mapM add_location items;
    match data with
    | JArr _ => py_setitem gnql "data" (JArr items)
    | _ => Ok gnql
    end
  else Ok gnql.

Definition gnql_query_formatter : formatter :=
  colored_output (λ gnql verbose,
    gnql ← gnql_locations gnql;
    render "gnql.txt.j2" "gnql" gnql verbose).

Definition gnql_stats_formatter : formatter :=
  colored_output (λ gnql_stats verbose,
    render "gnql_stats.txt.j2" "gnql_stats" gnql_stats verbose).

Definition actors_formatter : formatter :=
  colored_output (λ actors verbose,
    render "actors.txt.j2" "actors" actors verbose).

(** An entry of [FORMATTERS] is a formatter or a table of formatters. *)
Inductive formatters_entry :=
| Formatter (f : formatter)
| Formatters (table : gmap string formatter).

Definition FORMATTERS : gmap string formatters_entry :=
  list_to_map [
    ("json", Formatter json_formatter);
    ("xml", Formatter xml_formatter);
    ("txt", Formatters (list_to_map [
       ("ip.context", ip_context_formatter);
       ("ip.quick_check", ip_quick_check_formatter);
       ("ip.multi_quick_check", ip_multi_quick_check_formatter);
       ("gnql.query", gnql_query_formatter);
       ("gnql.stats", gnql_stats_formatter);
       ("actors", actors_formatter)
     ]))
  ]%string.

(** Modelled from the spec: the dispatch over [FORMATTERS], which the
    command-line front end does and which is not among the sources.  The
    format selects a formatter, for [txt] together with the kind; a pair
    that the table does not know fails with a dispatch error. *)
Definition format_result (format kind : string) : formatter :=
  λ result verbose,
    match FORMATTERS !! format with
    | Some (Formatter f) => f result verbose
    | Some (Formatters table) =>
        match table !! kind with
        | Some f => f result verbose
        | None => Err (DispatchError format kind)
        end
    | None => Err (DispatchError format kind)
    end.

(** The kinds of result that have a text renderer. *)
Definition txt_kinds : list string :=
  ["ip.context"; "ip.quick_check"; "ip.multi_quick_check";
   "gnql.query"; "gnql.stats"; "actors"]%string.

(** The location as the data model words it: the segments ["<city>,"],
    ["<country>"] and ["(<country_code>)"], each left out when its field
    is empty, joined by single spaces. *)
Definition spec_location (city country country_code : string) : string :=
  String.concat " "
    ((if decide (city = ""%string) then [] else [city +:+ ","])
     ++ (if decide (country = ""%string) then [] else [country])
     ++ (if decide (country_code = ""%string) then []
         else ["(" +:+ country_code +:+ ")"])).

(** A request that carries what the client puts on every request: the API
    key, the client header, the timeout and a URL under the versioned
    base. *)
Definition signed (request : http_request) : Prop :=
  headers request !! "key" = Some api_key
  ∧ headers request !! "X-Request-Client" = Some "pyGreyNoise v1"%string
  ∧ timeout request = 7
  ∧ ∃ endpoint, url request = BASE_URL +:+ "/" +:+ API_VERSION +:+ "/" +:+ endpoint.

(** An operation that, whatever the server answers, adds at most one
    request to those sent, and a signed one. *)
Definition at_most_one_request (op : Exec json) : Prop :=
  ∀ w, ∃ requests,
    sent (op w).2 = sent w ++ requests
    ∧ (length requests ≤ 1)%nat
    ∧ Forall signed requests.

(** The text of a field that is a string, the empty text for another
    value. *)
Definition text_of (v : json) : string :=
  match v with
  | JStr s => s
  | _ => ""
  end.

(** * Properties *)

(** ** The requester *)

Lemma lift_run {A} (r : res A) (w : world) : lift r w = (r, w).
Proof. reflexivity. Qed.

Lemma bind_run {A B} (c : Exec A) (f : A → Exec B) (w : world) :
  (c ≫= f) w = match c w with
               | (Ok a, w') => f a w'
               | (Err e, w') => (Err e, w')
               end.
Proof. reflexivity. Qed.

Lemma in_range_spec lo hi x : in_range lo hi x = true ↔ lo ≤ x < hi.
Proof. unfold in_range. rewrite andb_true_iff, Z.leb_le, Z.ltb_lt. done. Qed.

Lemma request_url endpoint :
  String.concat "/" [BASE_URL; API_VERSION; endpoint]
  = BASE_URL +:+ "/" +:+ API_VERSION +:+ "/" +:+ endpoint.
Proof. reflexivity. Qed.

(** What one call of the requester does, whatever the server has in
    store. *)
Lemma _request_run endpoint params json_ w :
  _request endpoint params json_ w =
    (match pending w with
     | [] => Err ConnectionError
     | response :: _ =>
         if in_range 200 299 (status_code response)
         then response_json response
         else Err (RequestFailure (status_code response) (content response))
     end,
     after_request (request_for endpoint params json_) w).
Proof.
  unfold _request. rewrite bind_run. unfold requests_get, after_request, request_for.
  destruct (pending w) as [|response rest]; [done|].
  by destruct (in_range 200 299 (status_code response)).
Qed.

(** C4: a response whose status is in [200, 299) makes the requester
    return the parsed body; any other status makes it raise
    [RequestFailure] with the status and the raw body, and it does not
    return a value. *)
Theorem _request_status endpoint params json_ w response rest :
  pending w = response :: rest →
  (200 ≤ status_code response < 299 →
     ∀ v, json_body response = Some v →
     (_request endpoint params json_ w).1 = Ok v)
  ∧ (¬ (200 ≤ status_code response < 299) →
     (_request endpoint params json_ w).1
     = Err (RequestFailure (status_code response) (content response))
     ∧ ∀ v, (_request endpoint params json_ w).1 ≠ Ok v).
Proof.
  intros Hpending. rewrite _request_run, Hpending. cbn [fst]. split.
  - intros Hin v Hv. apply in_range_spec in Hin. rewrite Hin.
    unfold response_json. by rewrite Hv.
  - intros Hout.
    destruct (in_range 200 299 (status_code response)) eqn:E.
    + by apply in_range_spec in E.
    + done.
Qed.

(** ** The bulk status look-up *)

Lemma bind_lift_run {A B} (r : res A) (f : A → Exec B) (w : world) :
  (lift r ≫= f) w = match r with
                    | Ok a => f a w
                    | Err e => (Err e, w)
                    end.
Proof. rewrite bind_run, lift_run. by destruct r. Qed.

(** Validation that is not strict never raises: the comprehension is a
    plain filter. *)
Lemma filterM_validate_ip (ip_addresses : list json) :
  filterM (λ ip_address, validate_ip ip_address false) ip_addresses
  = Ok (filter (λ ip_address, valid_ip ip_address = true) ip_addresses).
Proof.
  induction ip_addresses as [|ip rest IH]; [done|].
  cbn [filterM]. rewrite IH, filter_cons. unfold validate_ip.
  destruct (valid_ip ip); cbn; destruct (decide _); done.
Qed.

(** The body that the bulk look-up sends for a list of addresses. *)
Lemma get_noise_status_bulk_run (ip_addresses : list json) (w : world) :
  let kept := filter (λ ip_address, valid_ip ip_address = true) ip_addresses in
  let payload := JObj (<["ips" := JArr kept]> ∅) in
  get_noise_status_bulk (JArr ip_addresses) w
  = ((results ← (_request EP_NOISE_MULTI None (Some payload) w).1;
      items ← py_iter results;
      items ← mapM enrich items;
      mret (match results with JArr _ => JArr items | _ => results end)),
     after_request (request_for EP_NOISE_MULTI None (Some payload)) w).
Proof.
  intros kept payload. unfold get_noise_status_bulk.
  rewrite bind_lift_run, filterM_validate_ip. fold kept. fold payload.
  rewrite bind_run.
  destruct (_request EP_NOISE_MULTI None (Some payload) w) as [r w'] eqn:E.
  rewrite _request_run in E. injection E as _ <-. cbn [fst].
  destruct r as [results|e]; [|done].
  rewrite bind_lift_run. cbn [mbind res_bind].
  destruct (py_iter results) as [items|e]; [|done].
  rewrite bind_lift_run.
  cbn [mbind res_bind]. destruct (mapM enrich items); reflexivity.
Qed.

(** C3: the list that the bulk look-up sends, as the field [ips] of the
    JSON body of its one request, is the input list without the entries
    that fail the validation that is not strict, the others in their
    order. *)
Theorem get_noise_status_bulk_sends (ip_addresses : list json) (w : world) :
  ∃ kept : list json,
    sent (get_noise_status_bulk (JArr ip_addresses) w).2
    = sent w ++ [request_for EP_NOISE_MULTI None
                   (Some (JObj (<["ips" := JArr kept]> ∅)))]
    ∧ kept = filter (λ ip_address, valid_ip ip_address = true) ip_addresses
    ∧ kept `sublist_of` ip_addresses
    ∧ ∀ ip_address,
        ip_address ∈ kept
        ↔ ip_address ∈ ip_addresses ∧ validate_ip ip_address false = Ok true.
Proof.
  exists (filter (λ ip_address, valid_ip ip_address = true) ip_addresses).
  split; [|split; [done|split]].
  - by rewrite get_noise_status_bulk_run.
  - apply sublist_filter.
  - intros ip. rewrite list_elem_of_filter. unfold validate_ip.
    destruct (valid_ip ip); split; intros [H1 H2]; try done.
Qed.

(** ** The code messages *)

Lemma CODE_MESSAGES_unknown (code : string) :
  code ∉ known_codes → CODE_MESSAGES !! code = None.
Proof.
  intros H. apply not_elem_of_list_to_map_1. exact H.
Qed.

Lemma code_message_str (code : string) :
  code_message (JStr code)
  = Ok (default ("Code message unknown: " +:+ code) (CODE_MESSAGES !! code)).
Proof. reflexivity. Qed.

Lemma enrich_run (m : gmap string json) (code : json) :
  m !! "code" = Some code →
  enrich (JObj m)
  = (message ← code_message code;
     mret (JObj (<["code_message" := JStr message]> m))).
Proof. intros H. unfold enrich, py_getitem. rewrite H. reflexivity. Qed.

Lemma get_noise_status_run (ip_address : json) (w : world) :
  (get_noise_status ip_address w).1
  = (_ ← validate_ip ip_address true;
     result ← (_request (EP_NOISE_QUICK ip_address) None None w).1;
     enrich result).
Proof.
  unfold get_noise_status. rewrite bind_lift_run.
  destruct (validate_ip ip_address true) as [b|e]; [|done].
  cbn [mbind res_bind]. rewrite bind_run.
  by destruct (_request _ None None w) as [[result|e] w'].
Qed.

Lemma get_noise_status_bulk_result (ip_addresses : list json) (w : world) :
  (get_noise_status_bulk (JArr ip_addresses) w).1
  = (results ← (_request EP_NOISE_MULTI None
                  (Some (JObj (<["ips" := JArr (filter (λ ip_address,
                     valid_ip ip_address = true) ip_addresses)]> ∅))) w).1;
     items ← py_iter results;
     items ← mapM enrich items;
     mret (match results with JArr _ => JArr items | _ => results end)).
Proof. by rewrite get_noise_status_bulk_run. Qed.

Lemma mapM_Ok_Forall2 {A B} (f : A → res B) (l : list A) (l' : list B) :
  mapM f l = Ok l' ↔ Forall2 (λ a b, f a = Ok b) l l'.
Proof.
  revert l'. induction l as [|a l IH]; intros l'; cbn [mapM].
  - split; [intros [= <-]; constructor | by inversion 1].
  - split.
    + destruct (f a) as [b|e] eqn:Ea; [|done]. cbn [mbind res_bind].
      destruct (mapM f l) as [bs|e] eqn:El; [|done].
      intros [= <-]. constructor; [done|]. by apply IH.
    + inversion 1 as [|? b ? bs Hb Hbs]; subst. rewrite Hb.
      apply IH in Hbs. rewrite Hbs. reflexivity.
Qed.

(** C2, amended: on a record whose code is one of the nine codes [0x00]
    to [0x08], enrichment sets [code_message] to the text that
    [CODE_MESSAGES] gives for it; on any other code that a dict can look
    up, to ["Code message unknown: <code>"].  [get_noise_status] enriches
    the record it receives, [get_noise_status_bulk] each element of the
    list it receives. *)
Theorem enrich_code_message (m : gmap string json) (code : json) :
  m !! "code" = Some code →
  hashable code = true →
  ∃ message : string,
    enrich (JObj m) = Ok (JObj (<["code_message" := JStr message]> m))
    ∧ (code = JStr "0x00" →
       message = "IP has never been observed scanning the Internet")
    ∧ (code = JStr "0x01" →
       message = "IP has been observed by the GreyNoise sensor network")
    ∧ (code = JStr "0x02" →
       message = "IP has been observed scanning the GreyNoise sensor network, but has not completed a full connection, meaning this can be spoofed")
    ∧ (code = JStr "0x03" →
       message = "IP is adjacent to another host that has been directly observed by the GreyNoise sensor network")
    ∧ (code = JStr "0x04" → message = "RESERVED")
    ∧ (code = JStr "0x05" →
       message = "IP is commonly spoofed in Internet-scan activity")
    ∧ (code = JStr "0x06" →
       message = "IP has been observed as noise, but this host belongs to a cloud provider where IPs can be cycled frequently")
    ∧ (code = JStr "0x07" → message = "IP is invalid")
    ∧ (code = JStr "0x08" →
       message = "IP was classified as noise, but has not been observed engaging in Internet-wide scans or attacks in over 60 days")
    ∧ ((∀ known, known ∈ known_codes → code ≠ JStr known) →
       message = "Code message unknown: " +:+ py_format code)
    ∧ (∀ ip_address w,
         valid_ip ip_address = true →
         (_request (EP_NOISE_QUICK ip_address) None None w).1 = Ok (JObj m) →
         (get_noise_status ip_address w).1
         = Ok (JObj (<["code_message" := JStr message]> m)))
    ∧ (∀ ip_addresses w results v,
         (_request EP_NOISE_MULTI None
            (Some (JObj (<["ips" := JArr (filter (λ ip_address,
               valid_ip ip_address = true) ip_addresses)]> ∅))) w).1
         = Ok (JArr results) →
         (get_noise_status_bulk (JArr ip_addresses) w).1 = Ok v →
         ∃ results', v = JArr results'
           ∧ length results' = length results
           ∧ ∀ i, results !! i = Some (JObj m) →
                  results' !! i
                  = Some (JObj (<["code_message" := JStr message]> m))).
Proof.
  intros Hcode Hhash.
  assert (∃ message, code_message code = Ok message
            ∧ (∀ known, code = JStr known →
                 message = default ("Code message unknown: " +:+ known)
                                   (CODE_MESSAGES !! known))
            ∧ ((∀ known, known ∈ known_codes → code ≠ JStr known) →
               message = "Code message unknown: " +:+ py_format code))
    as (message & Hmessage & Hknown & Hunknown).
  { destruct code as [|b|n|c|l|o]; try done;
      try (eexists; split; [reflexivity|]; split; [done|done]).
    eexists. split; [apply code_message_str|]. split.
    - by intros known [= <-].
    - intros H. rewrite CODE_MESSAGES_unknown; [done|].
      intros Hin. by apply (H c). }
  assert (Henrich : enrich (JObj m)
                    = Ok (JObj (<["code_message" := JStr message]> m))).
  { rewrite (enrich_run m code Hcode), Hmessage. reflexivity. }
  exists message. split; [exact Henrich|].
  do 9 (split; [intros ->; by rewrite (Hknown _ eq_refl)|]).
  split; [exact Hunknown|]. split.
  - intros ip w Hip Hrequest. rewrite get_noise_status_run.
    unfold validate_ip. rewrite Hip, Hrequest. exact Henrich.
  - intros ips w results v Hrequest Hbulk.
    rewrite get_noise_status_bulk_result, Hrequest in Hbulk.
    cbn [mbind res_bind py_iter] in Hbulk.
    destruct (mapM enrich results) as [results'|e] eqn:Hmap; [|done].
    injection Hbulk as <-. apply mapM_Ok_Forall2 in Hmap.
    exists results'. split; [done|]. split.
    + symmetry. by eapply Forall2_length.
    + intros i Hi.
      destruct (Forall2_lookup_l _ _ _ _ _ Hmap Hi) as (r' & Hi' & Hr').
      rewrite Henrich in Hr'. by injection Hr' as <-.
Qed.

(** ** Sets of hashable values *)

Lemma py_eqb_key (a b : json) :
  hashable a = true → hashable b = true →
  py_eqb a b = true ↔ py_key a = py_key b.
Proof.
  intros Ha Hb.
  destruct a as [|x|n|s|?|?], b as [|y|k|t|?|?]; try done; cbn.
  - destruct x, y; split; done.
  - rewrite Z.eqb_eq. split; [by intros ->|by intros [= ->]].
  - rewrite Z.eqb_eq. split; [by intros ->|by intros [= ->]].
  - rewrite Z.eqb_eq. split; [by intros ->|by intros [= ->]].
  - rewrite String.eqb_eq. split; [by intros ->|by intros [= ->]].
Qed.

Lemma py_eqb_refl (a : json) : hashable a = true → py_eqb a a = true.
Proof. intros Ha. by apply py_eqb_key. Qed.

Lemma py_eqb_trans (a b c : json) :
  hashable a = true → hashable b = true → hashable c = true →
  py_eqb a b = true → py_eqb b c = true → py_eqb a c = true.
Proof.
  intros Ha Hb Hc. rewrite !py_eqb_key by done. congruence.
Qed.

Lemma py_eqb_str (s : string) (v : json) :
  py_eqb (JStr s) v = true → v = JStr s.
Proof.
  destruct v; try done. cbn. rewrite String.eqb_eq. by intros ->.
Qed.

Lemma py_dedup_elem_of (l : list json) (x : json) :
  x ∈ py_dedup l → x ∈ l.
Proof.
  induction l as [|a l IH]; [done|]. cbn [py_dedup].
  rewrite !elem_of_cons, list_elem_of_filter. intros [->|[_ H]]; auto.
Qed.

Lemma py_dedup_NoDup (l : list json) :
  forallb hashable l = true → NoDup (py_dedup l).
Proof.
  induction l as [|a l IH]; [constructor|].
  cbn [forallb py_dedup]. rewrite andb_true_iff. intros [Ha Hl].
  constructor.
  - rewrite list_elem_of_filter. intros [H _].
    by rewrite py_eqb_refl in H.
  - apply NoDup_filter. by apply IH.
Qed.

Lemma py_dedup_covers (l : list json) (x : json) :
  forallb hashable l = true → x ∈ l →
  ∃ y, y ∈ py_dedup l ∧ py_eqb y x = true.
Proof.
  induction l as [|a l IH]; [by inversion 2|].
  cbn [forallb py_dedup]. rewrite andb_true_iff. intros [Ha Hl].
  assert (Hall : ∀ v, v ∈ l → hashable v = true).
  { intros v Hv. eapply forallb_forall; [exact Hl|by apply list_elem_of_In]. }
  rewrite elem_of_cons. intros [->|Hx].
  - exists a. split; [left|by apply py_eqb_refl].
  - destruct (IH Hl Hx) as (y & Hy & Hyx).
    destruct (py_eqb a y) eqn:Hay.
    + exists a. split; [left|].
      apply py_eqb_trans with y; auto using py_dedup_elem_of.
    + exists y. split; [|done]. right. by apply list_elem_of_filter.
Qed.

(** ** The bulk dump *)

Lemma get_noise_endpoint (date : option string) (recurse : bool) (w : world) :
  date_passes date →
  get_noise date recurse w
  = (if recurse then
       r ← _recurse recursion_limit
              {| cfg_endpoint := noise_endpoint date; cfg_params := ∅;
                 cfg_results := []; cfg_data_key := "noise_ips" |}
              (JBool false);
       mret r.1
     else
       response ← _request (noise_endpoint date) None None;
       noise_ips ← lift (py_getitem response "noise_ips");
       ips ← lift (py_list_set noise_ips);
       mret (JObj (<["result_count" := JNum (Z.of_nat (length ips))]>
                     (<["results" := JArr ips]> ∅)))) w.
Proof.
  intros Hdate. unfold get_noise. rewrite bind_lift_run.
  destruct date as [d|]; [|done]. cbn [noise_endpoint].
  destruct (truthy (JStr d)) eqn:Hd; [|done].
  by rewrite (Hdate d eq_refl Hd).
Qed.

(** C5: without recursion [get_noise] issues exactly one request and
    returns a record whose [results] is the response's [noise_ips] without
    duplicates (the same elements, each once) and whose [result_count] is
    the length of [results]. *)
Theorem get_noise_once (date : option string) (w : world)
    (response : http_response) (rest : list http_response)
    (m : gmap string json) (noise_ips : list json) :
  date_passes date →
  pending w = response :: rest →
  200 ≤ status_code response < 299 →
  json_body response = Some (JObj m) →
  m !! "noise_ips" = Some (JArr noise_ips) →
  forallb hashable noise_ips = true →
  ∃ results : list json,
    get_noise date false w
    = (Ok (JObj (<["result_count" := JNum (Z.of_nat (length results))]>
                   (<["results" := JArr results]> ∅))),
       {| pending := rest;
          sent := sent w ++ [request_for (noise_endpoint date) None None] |})
    ∧ NoDup results
    ∧ (∀ ip, ip ∈ results → ip ∈ noise_ips)
    ∧ (∀ ip, ip ∈ noise_ips → ∃ ip', ip' ∈ results ∧ py_eqb ip' ip = true)
    ∧ (∀ ip : string, JStr ip ∈ results ↔ JStr ip ∈ noise_ips).
Proof.
  intros Hdate Hpending Hstatus Hbody Hips Hhash.
  exists (set_order (py_dedup noise_ips)).
  assert (Hcover : ∀ ip, ip ∈ noise_ips →
            ∃ ip', ip' ∈ set_order (py_dedup noise_ips) ∧ py_eqb ip' ip = true).
  { intros ip Hip. destruct (py_dedup_covers _ _ Hhash Hip) as (y & Hy & Hyx).
    exists y. by rewrite set_order_perm. }
  assert (Hsub : ∀ ip, ip ∈ set_order (py_dedup noise_ips) → ip ∈ noise_ips).
  { intros ip. rewrite set_order_perm. apply py_dedup_elem_of. }
  split; [|split; [|split; [exact Hsub|split; [exact Hcover|]]]].
  - rewrite (get_noise_endpoint _ _ _ Hdate). rewrite bind_run, _request_run.
    rewrite Hpending. apply in_range_spec in Hstatus. rewrite Hstatus.
    unfold response_json. rewrite Hbody.
    rewrite bind_lift_run. cbn [py_getitem]. rewrite Hips.
    rewrite bind_lift_run. unfold py_list_set. cbn [py_iter mbind res_bind].
    rewrite Hhash. unfold after_request. by rewrite Hpending.
  - rewrite set_order_perm. by apply py_dedup_NoDup.
  - intros ip. split; [apply Hsub|]. intros Hip.
    destruct (Hcover _ Hip) as (ip' & Hip' & Heq).
    assert (Hsame : py_eqb (JStr ip) ip' = true).
    { destruct ip'; try done. cbn in Heq |- *. by rewrite String.eqb_sym. }
    by rewrite <- (py_eqb_str _ _ Hsame).
Qed.

(** The recursive driver on a run of pages that are not complete followed
    by a complete one: it asks for each page, adds the name of the data
    key to the accumulator once per page that is not complete, and
    returns [None]. *)
Lemma _recurse_pages (incomplete : list http_response) (last : http_response)
    (rest : list http_response) :
  Forall (λ response, ∃ noise_ips, is_page false noise_ips response) incomplete →
  (∃ noise_ips, is_page true noise_ips last) →
  ∀ (depth : nat) (config : recurse_config) (breaker : json) (w : world),
    truthy breaker = false →
    pending w = incomplete ++ last :: rest →
    (length incomplete < depth)%nat →
    _recurse depth config breaker w
    = (Ok (JNull,
           {| cfg_endpoint := cfg_endpoint config;
              cfg_params := cfg_params config;
              cfg_results := cfg_results config
                             ++ replicate (length incomplete)
                                          (JStr (cfg_data_key config));
              cfg_data_key := cfg_data_key config |}),
       {| pending := rest;
          sent := sent w
                  ++ replicate (S (length incomplete))
                       (request_for (cfg_endpoint config)
                                    (Some (cfg_params config)) None) |}).
Proof.
  intros Hincomplete (last_ips & Hlast_status & m_last & Hlast_body & _ & Hlast).
  induction Hincomplete as [|page pages (ips & Hstatus & m & Hbody & _ & Hflag) _ IH];
    intros depth config breaker w Hbreaker Hpending Hdepth;
    (destruct depth as [|depth]; [cbn in Hdepth; lia|]);
    cbn [_recurse]; rewrite Hbreaker, bind_run, _request_run, Hpending;
    cbn [app]; unfold after_request; rewrite Hpending; cbn [tail app].
  - apply in_range_spec in Hlast_status. rewrite Hlast_status.
    unfold response_json. rewrite Hlast_body.
    rewrite bind_lift_run. cbn [py_getitem]. rewrite Hlast.
    cbn [truthy negb length replicate]. rewrite app_nil_r.
    by destruct config.
  - apply in_range_spec in Hstatus. rewrite Hstatus.
    unfold response_json. rewrite Hbody.
    rewrite bind_lift_run. cbn [py_getitem]. rewrite Hflag.
    cbn [truthy negb]. rewrite bind_run.
    rewrite IH; [|done|done|cbn in Hdepth; lia].
    cbn [cfg_endpoint cfg_params cfg_results cfg_data_key sent length snd].
    rewrite <- !app_assoc. reflexivity.
Qed.

(** C1: on pages that end with a complete one, [get_noise] with recursion
    asks for every page and returns [None]: no record, no [results], no
    [result_count].  The pages themselves are never added to the
    accumulator. *)
Theorem get_noise_recurse_None (date : option string) (w : world)
    (incomplete : list http_response) (last : http_response)
    (rest : list http_response) :
  date_passes date →
  Forall (λ response, ∃ noise_ips, is_page false noise_ips response) incomplete →
  (∃ noise_ips, is_page true noise_ips last) →
  pending w = incomplete ++ last :: rest →
  (length incomplete < recursion_limit)%nat →
  get_noise date true w
  = (Ok JNull,
     {| pending := rest;
        sent := sent w
                ++ replicate (S (length incomplete))
                     (request_for (noise_endpoint date) (Some ∅) None) |}).
Proof.
  intros Hdate Hincomplete Hlast Hpending Hdepth.
  rewrite (get_noise_endpoint _ _ _ Hdate), bind_run.
  by rewrite (_recurse_pages incomplete last rest Hincomplete Hlast
                recursion_limit _ (JBool false) w eq_refl Hpending Hdepth).
Qed.




(** ** The formatters *)

Lemma truthy_str (s : string) :
  truthy (JStr s) = if decide (s = ""%string) then false else true.
Proof.
  cbn. destruct (String.eqb_spec s ""); destruct (decide _); done.
Qed.

(** C9: on a metadata record whose [city], [country] and [country_code]
    are strings, [get_location] returns the segments ["<city>,"],
    ["<country>"] and ["(<country_code>)"], without those whose field is
    empty, joined by single spaces; so the empty string when all three
    are empty, ["Paris, France (FR)"] for Paris, France, FR and
    ["France (FR)"] when the city is empty. *)
Theorem get_location_strings (metadata : gmap string json)
    (city country country_code : string) :
  metadata !! "city" = Some (JStr city) →
  metadata !! "country" = Some (JStr country) →
  metadata !! "country_code" = Some (JStr country_code) →
  get_location (JObj metadata) = Ok (spec_location city country country_code)
  ∧ spec_location "" "" "" = ""%string
  ∧ spec_location "Paris" "France" "FR" = "Paris, France (FR)"%string
  ∧ spec_location "" "France" "FR" = "France (FR)"%string.
Proof.
  intros Hcity Hcountry Hcode. split; [|done].
  unfold get_location, py_getitem. rewrite Hcity, Hcountry, Hcode.
  cbn [mbind res_bind]. rewrite !truthy_str. unfold spec_location.
  destruct (decide (city = "")), (decide (country = "")),
    (decide (country_code = "")); reflexivity.
Qed.

(** C10: the output of the JSON formatter and the output of the XML
    formatter do not depend on the verbose flag. *)
Theorem formatters_ignore_verbose (result : json) (verbose1 verbose2 : bool) :
  json_formatter result verbose1 = json_formatter result verbose2
  ∧ xml_formatter result verbose1 = xml_formatter result verbose2.
Proof. split; reflexivity. Qed.

Lemma FORMATTERS_txt :
  FORMATTERS !! "txt"
  = Some (Formatters (list_to_map [
       ("ip.context", ip_context_formatter);
       ("ip.quick_check", ip_quick_check_formatter);
       ("ip.multi_quick_check", ip_multi_quick_check_formatter);
       ("gnql.query", gnql_query_formatter);
       ("gnql.stats", gnql_stats_formatter);
       ("actors", actors_formatter)
     ]%string)).
Proof. reflexivity. Qed.

(** C7: the table of text renderers has an entry for the six kinds
    [ip.context], [ip.quick_check], [ip.multi_quick_check], [gnql.query],
    [gnql.stats] and [actors] and for no other kind; formatting as [txt]
    a result of another kind fails with a dispatch error. *)
Theorem txt_formatters_six :
  ∃ table : gmap string formatter,
    FORMATTERS !! "txt" = Some (Formatters table)
    ∧ table !! "ip.context" = Some ip_context_formatter
    ∧ table !! "ip.quick_check" = Some ip_quick_check_formatter
    ∧ table !! "ip.multi_quick_check" = Some ip_multi_quick_check_formatter
    ∧ table !! "gnql.query" = Some gnql_query_formatter
    ∧ table !! "gnql.stats" = Some gnql_stats_formatter
    ∧ table !! "actors" = Some actors_formatter
    ∧ (∀ kind, is_Some (table !! kind) ↔ kind ∈ txt_kinds)
    ∧ (∀ kind result verbose,
         kind ∉ txt_kinds →
         format_result "txt" kind result verbose
         = Err (DispatchError "txt" kind))
    ∧ (∀ kind result verbose f,
         table !! kind = Some f →
         format_result "txt" kind result verbose = f result verbose).
Proof.
  pose (table := (list_to_map [
               ("ip.context", ip_context_formatter);
               ("ip.quick_check", ip_quick_check_formatter);
               ("ip.multi_quick_check", ip_multi_quick_check_formatter);
               ("gnql.query", gnql_query_formatter);
               ("gnql.stats", gnql_stats_formatter);
               ("actors", actors_formatter)
             ]%string : gmap string formatter)).
  assert (Htxt : FORMATTERS !! "txt" = Some (Formatters table))
    by apply FORMATTERS_txt.
  assert (Hnone : ∀ kind, kind ∉ txt_kinds → table !! kind = None).
  { intros kind H. apply not_elem_of_list_to_map_1. exact H. }
  exists table. split; [exact Htxt|].
  do 6 (split; [reflexivity|]).
  split; [|split].
  - intros kind. split.
    + intros [f Hf]. destruct (decide (kind ∈ txt_kinds)) as [|Hout]; [done|].
      rewrite (Hnone kind Hout) in Hf. done.
    + unfold txt_kinds. rewrite !elem_of_cons, elem_of_nil.
      intros [->|[->|[->|[->|[->|[->|[]]]]]]]; eexists; reflexivity.
  - intros kind result verbose Hout. unfold format_result.
    by rewrite Htxt, (Hnone kind Hout).
  - intros kind result verbose f Hf. unfold format_result.
    by rewrite Htxt, Hf.
Qed.

Lemma gnql_locations_data (gnql : gmap string json) (entries : list json) :
  gnql !! "data" = Some (JArr entries) →
  gnql_locations (JObj gnql)
  = (entries' ← mapM add_location entries;
     mret (JObj (<["data" := JArr entries']> gnql))).
Proof.
  intros Hdata. unfold gnql_locations. cbn [py_contains mbind res_bind].
  rewrite bool_decide_eq_true_2 by (by rewrite Hdata).
  cbn [py_getitem]. rewrite Hdata. reflexivity.
Qed.

(** C8: the renderer of [ip.context] passes its record, and the renderer
    of [gnql.query] every entry of [data], through the same step before
    the template is rendered.  On a record that was seen the step sets
    [location] in [metadata] to the derived string and changes no other
    field; on a record that was not seen it changes nothing. *)
Theorem add_location_when_seen (ip_context : gmap string json) (seen : json) :
  ip_context !! "seen" = Some seen →
  (truthy seen = false → add_location (JObj ip_context) = Ok (JObj ip_context))
  ∧ (truthy seen = true →
     ∀ metadata location,
       ip_context !! "metadata" = Some (JObj metadata) →
       get_location (JObj metadata) = Ok location →
       ∃ metadata' ip_context' : gmap string json,
         add_location (JObj ip_context) = Ok (JObj ip_context')
         ∧ ip_context' !! "metadata" = Some (JObj metadata')
         ∧ metadata' !! "location" = Some (JStr location)
         ∧ (∀ field, field ≠ "location"%string →
                     metadata' !! field = metadata !! field)
         ∧ (∀ field, field ≠ "metadata"%string →
                     ip_context' !! field = ip_context !! field))
  ∧ (∀ verbose,
       ip_context_formatter (JObj ip_context) verbose
       = (record ← add_location (JObj ip_context);
          output ← render "ip_context.txt.j2" "ip_context" record verbose;
          ANSI_MARKUP output))
  ∧ (∀ (gnql : gmap string json) entries verbose,
       gnql !! "data" = Some (JArr entries) →
       gnql_query_formatter (JObj gnql) verbose
       = (entries' ← mapM add_location entries;
          output ← render "gnql.txt.j2" "gnql"
                     (JObj (<["data" := JArr entries']> gnql)) verbose;
          ANSI_MARKUP output)
       ∧ ∀ entries',
           mapM add_location entries = Ok entries' →
           Forall2 (λ entry entry', add_location entry = Ok entry')
                   entries entries').
Proof.
  intros Hseen. split; [|split; [|split]].
  - intros Hfalse. unfold add_location. cbn [py_getitem]. rewrite Hseen.
    cbn [mbind res_bind]. by rewrite Hfalse.
  - intros Htrue metadata location Hmetadata Hlocation.
    exists (<["location" := JStr location]> metadata),
           (<["metadata" := JObj (<["location" := JStr location]> metadata)]>
              ip_context).
    split; [|split; [|split; [|split]]].
    + unfold add_location. cbn [py_getitem]. rewrite Hseen.
      cbn [mbind res_bind]. rewrite Htrue, Hmetadata.
      cbn [mbind res_bind]. by rewrite Hlocation.
    + apply lookup_insert_eq.
    + apply lookup_insert_eq.
    + intros field Hfield. by apply lookup_insert_ne.
    + intros field Hfield. by apply lookup_insert_ne.
  - intros verbose. unfold ip_context_formatter, colored_output.
    destruct (add_location (JObj ip_context)); reflexivity.
  - intros gnql entries verbose Hdata. split.
    + unfold gnql_query_formatter, colored_output.
      rewrite (gnql_locations_data _ _ Hdata).
      destruct (mapM add_location entries); reflexivity.
    + intros entries'. apply mapM_Ok_Forall2.
Qed.

(** * Further properties of the client *)

(** ** Validation comes before any request *)

Lemma _request_world endpoint params json_ w :
  (_request endpoint params json_ w).2
  = after_request (request_for endpoint params json_) w.
Proof. by rewrite _request_run. Qed.

Lemma request_for_signed endpoint params json_ :
  signed (request_for endpoint params json_).
Proof.
  unfold signed, request_for. cbn [headers timeout url].
  split; [apply lookup_insert_eq|].
  split; [by rewrite lookup_insert_ne, lookup_insert_eq|].
  split; [done|]. by exists endpoint.
Qed.

(** X1: an address that fails validation makes the two look-ups of a
    single address raise a [ValueError] without any request. *)
Theorem invalid_address_no_request (ip_address : json) (w : world) :
  valid_ip ip_address = false →
  ∃ msg,
    get_noise_status ip_address w = (Err (ValueError msg), w)
    ∧ get_context ip_address w = (Err (ValueError msg), w).
Proof.
  intros Hinvalid. eexists. unfold get_noise_status, get_context.
  rewrite !bind_lift_run. unfold validate_ip. rewrite Hinvalid. done.
Qed.

(** X2: the bulk look-up raises a [ValueError] on an input that is not a
    list, without any request. *)
Theorem bulk_input_must_be_list (ip_addresses : json) (w : world) :
  (∀ l, ip_addresses ≠ JArr l) →
  get_noise_status_bulk ip_addresses w
  = (Err (ValueError "`ip_addresses` must be a list"), w).
Proof.
  intros Hlist. destruct ip_addresses; try done. by destruct (Hlist l).
Qed.

(** X3: a date that is not empty and not valid makes [get_noise] raise a
    [ValueError] without any request, with or without recursion.  The
    empty string is not validated at all: it is taken as no date. *)
Theorem invalid_date_no_request (d : string) (recurse : bool) (w : world) :
  valid_date d = false →
  (d ≠ ""%string →
   ∃ msg, get_noise (Some d) recurse w = (Err (ValueError msg), w))
  ∧ (d = ""%string → get_noise (Some d) recurse w = get_noise None recurse w).
Proof.
  intros Hinvalid. split.
  - intros Hd. eexists. unfold get_noise. rewrite bind_lift_run.
    rewrite truthy_str. destruct (decide (d = "")); [done|].
    unfold validate_date. rewrite Hinvalid. done.
  - by intros ->.
Qed.

(** ** The requests that the operations issue *)

(** X4: whatever the server answers, each operation that does not recurse
    issues at most one request, and the request carries the API key, the
    client header, the timeout of 7 seconds and a URL under the versioned
    base. *)
Theorem one_signed_request :
  (∀ ip_address, at_most_one_request (get_noise_status ip_address))
  ∧ (∀ ip_address, at_most_one_request (get_context ip_address))
  ∧ (∀ ip_addresses, at_most_one_request (get_noise_status_bulk ip_addresses))
  ∧ (∀ date, at_most_one_request (get_noise date false)).
Proof.
  assert (Hnone : ∀ w w', w' = w →
            ∃ requests, sent w' = sent w ++ requests
                        ∧ (length requests ≤ 1)%nat ∧ Forall signed requests).
  { intros w w' ->. exists []. rewrite app_nil_r. repeat split; [cbn; lia|constructor]. }
  assert (Hone : ∀ w endpoint params json_ w',
            w' = after_request (request_for endpoint params json_) w →
            ∃ requests, sent w' = sent w ++ requests
                        ∧ (length requests ≤ 1)%nat ∧ Forall signed requests).
  { intros w endpoint params json_ w' ->. eexists [_]. split; [reflexivity|].
    split; [cbn; lia|]. repeat constructor. apply request_for_signed. }
  split; [|split; [|split]]; [intros ip w|intros ip w|intros ips w|intros date w].
  - unfold get_noise_status. rewrite bind_lift_run.
    destruct (validate_ip ip true); [|by apply Hnone].
    rewrite bind_run.
    destruct (_request _ None None w) as [[result|e] w'] eqn:E;
      apply (f_equal snd) in E; rewrite _request_world in E; cbn [snd] in E;
      eapply Hone; [rewrite lift_run|]; done.
  - unfold get_context. rewrite bind_lift_run.
    destruct (validate_ip ip true); [|by apply Hnone].
    rewrite bind_run.
    destruct (_request _ None None w) as [[result|e] w'] eqn:E;
      apply (f_equal snd) in E; rewrite _request_world in E; cbn [snd] in E;
      eapply Hone; done.
  - destruct ips as [| | | |ips|]; try by apply Hnone.
    eapply Hone. by rewrite get_noise_status_bulk_run.
  - unfold get_noise. rewrite bind_lift_run.
    destruct (match date with Some _ => _ | None => _ end) as [endpoint|e];
      [|by apply Hnone].
    rewrite bind_run.
    destruct (_request endpoint None None w) as [[response|e] w'] eqn:E;
      apply (f_equal snd) in E; rewrite _request_world in E; cbn [snd] in E;
      [|eapply Hone; done].
    rewrite bind_lift_run.
    destruct (py_getitem response "noise_ips"); [|eapply Hone; done].
    rewrite bind_lift_run.
    destruct (py_list_set a); eapply Hone; done.
Qed.

Lemma drop_S_tail {A} (k : nat) (l : list A) : drop (S k) l = drop k (tail l).
Proof. destruct l; cbn; [by rewrite drop_nil|done]. Qed.

(** The requests of the recursive driver, whatever the server answers and
    however the call ends. *)
Lemma _recurse_requests (depth : nat) :
  ∀ (config : recurse_config) (breaker : json) (w : world),
    ∃ k, (k ≤ depth)%nat
      ∧ sent (_recurse depth config breaker w).2
        = sent w ++ replicate k (request_for (cfg_endpoint config)
                                   (Some (cfg_params config)) None)
      ∧ pending (_recurse depth config breaker w).2 = drop k (pending w).
Proof.
  induction depth as [|depth IH]; intros config breaker w.
  { exists 0%nat. cbn. by rewrite app_nil_r. }
  cbn [_recurse].
  destruct (truthy breaker).
  { exists 0%nat. cbn. split; [lia|]. by rewrite app_nil_r. }
  rewrite bind_run.
  destruct (_request _ _ None w) as [[response|e] w1] eqn:E;
    apply (f_equal snd) in E; rewrite _request_world in E; cbn [snd] in E;
    subst w1.
  2: { exists 1%nat. cbn. split; [lia|done]. }
  rewrite bind_lift_run.
  destruct (py_getitem response "complete") as [complete|e].
  2: { exists 1%nat. cbn. split; [lia|done]. }
  destruct (negb (truthy complete)).
  2: { exists 1%nat. cbn. split; [lia|done]. }
  rewrite bind_run.
  match goal with
  | |- context [_recurse depth ?c ?b ?w1] =>
      destruct (IH c b w1) as (k & Hk & Hsent & Hpending);
      destruct (_recurse depth c b w1) as [[r|e] w2]
  end;
    cbn [snd cfg_endpoint cfg_params] in *; unfold mret, Exec_ret; cbn [snd];
    exists (S k); (split; [lia|]);
    rewrite Hsent, Hpending, drop_S_tail; cbn [after_request sent pending replicate];
    by rewrite <- app_assoc.
Qed.

Lemma endpoint_of_date (date : option string) (endpoint : string) :
  (match date with
   | Some d =>
       if truthy (JStr d) then _ ← validate_date d; mret (EP_NOISE_BULK_DATE d)
       else mret EP_NOISE_BULK
   | None => mret EP_NOISE_BULK
   end) = Ok endpoint →
  endpoint = noise_endpoint date.
Proof.
  destruct date as [d|]; cbn [noise_endpoint]; [|by intros [= <-]].
  destruct (truthy (JStr d)); [|by intros [= <-]].
  destruct (validate_date d); [|done]. by intros [= <-].
Qed.

(** X5: with recursion [get_noise] asks the same request again for every
    page, with the same empty parameters: nothing of a page is carried into
    the next request.  It issues at most as many requests as the
    interpreter allows nested calls, and reads one response for each. *)
Theorem recursion_repeats_request (date : option string) (w : world) :
  ∃ k, (k ≤ recursion_limit)%nat
    ∧ sent (get_noise date true w).2
      = sent w ++ replicate k (request_for (noise_endpoint date) (Some ∅) None)
    ∧ pending (get_noise date true w).2 = drop k (pending w).
Proof.
  unfold get_noise. rewrite bind_lift_run.
  destruct (match date with Some _ => _ | None => _ end) as [endpoint|e] eqn:E.
  2: { exists 0%nat. cbn. split; [lia|]. by rewrite app_nil_r. }
  apply endpoint_of_date in E. subst endpoint. rewrite bind_run.
  match goal with
  | |- context [_recurse recursion_limit ?c ?b w] =>
      destruct (_recurse_requests recursion_limit c b w) as (k & Hk & Hsent & Hpending);
      destruct (_recurse recursion_limit c b w) as [[r|e] w1]
  end; exists k; done.
Qed.

(** X6: when the recursive driver returns, it returns [None]; it has left
    the endpoint, the parameters and the data key of its configuration as
    they were and has added to the accumulator nothing but the name of the
    data key, once for each request but the last. *)
Theorem recursion_accumulates_key_name (depth : nat) :
  ∀ (config config' : recurse_config) (breaker v : json) (w w' : world),
    _recurse depth config breaker w = (Ok (v, config'), w') →
    v = JNull
    ∧ cfg_endpoint config' = cfg_endpoint config
    ∧ cfg_params config' = cfg_params config
    ∧ cfg_data_key config' = cfg_data_key config
    ∧ ∃ n, cfg_results config'
           = cfg_results config ++ replicate n (JStr (cfg_data_key config))
         ∧ sent w'
           = sent w ++ replicate (if truthy breaker then 0 else S n)
                         (request_for (cfg_endpoint config)
                                      (Some (cfg_params config)) None).
Proof.
  induction depth as [|depth IH]; intros config config' breaker v w w'; [done|].
  cbn [_recurse].
  destruct (truthy breaker).
  { intros [= <- <- <-]. repeat split. exists 0%nat. cbn. by rewrite !app_nil_r. }
  rewrite bind_run.
  destruct (_request _ _ None w) as [[response|e] w1] eqn:E; [|done].
  apply (f_equal snd) in E. rewrite _request_world in E. cbn [snd] in E. subst w1.
  rewrite bind_lift_run.
  destruct (py_getitem response "complete") as [complete|e]; [|done].
  destruct (negb (truthy complete)) eqn:Hcomplete.
  2: { intros [= <- <- <-]. repeat split. exists 0%nat. cbn. by rewrite app_nil_r. }
  rewrite bind_run.
  match goal with
  | |- context [_recurse depth ?c ?b ?w1] =>
      destruct (_recurse depth c b w1) as [[[v1 config1]|e] w2] eqn:Hrec; [|done]
  end.
  apply IH in Hrec as (_ & Hendpoint & Hparams & Hkey & n & Hresults & Hsent).
  cbn [cfg_endpoint cfg_params cfg_results cfg_data_key] in *.
  intros [= <- <- <-]. cbn [snd]. repeat split; try done.
  exists (S n). split.
  - rewrite Hresults, <- app_assoc. done.
  - rewrite Hsent. apply negb_true_iff in Hcomplete. rewrite Hcomplete.
    cbn [after_request sent replicate]. by rewrite <- app_assoc.
Qed.

(** ** Failures of the server and of the response *)

Lemma _request_failure endpoint params json_ w response rest :
  pending w = response :: rest →
  ¬ (200 ≤ status_code response < 299) →
  _request endpoint params json_ w
  = (Err (RequestFailure (status_code response) (content response)),
     after_request (request_for endpoint params json_) w).
Proof.
  intros Hpending Hstatus. rewrite _request_run, Hpending.
  destruct (in_range 200 299 (status_code response)) eqn:E; [|done].
  by apply in_range_spec in E.
Qed.

Lemma _request_success endpoint params json_ w response rest v :
  pending w = response :: rest →
  200 ≤ status_code response < 299 →
  json_body response = Some v →
  _request endpoint params json_ w
  = (Ok v, {| pending := rest;
              sent := sent w ++ [request_for endpoint params json_] |}).
Proof.
  intros Hpending Hstatus Hbody. rewrite _request_run, Hpending.
  apply in_range_spec in Hstatus. rewrite Hstatus.
  unfold response_json, after_request. by rewrite Hbody, Hpending.
Qed.

(** X7: a response whose status is outside [200, 299) makes every
    operation whose validation passes raise [RequestFailure] with that
    status and body; no operation hides it or asks again. *)
Theorem request_failure_reaches_caller (w : world) (response : http_response)
    (rest : list http_response) :
  pending w = response :: rest →
  ¬ (200 ≤ status_code response < 299) →
  let failure := RequestFailure (status_code response) (content response) in
  (∀ ip_address, valid_ip ip_address = true →
     (get_noise_status ip_address w).1 = Err failure
     ∧ (get_context ip_address w).1 = Err failure)
  ∧ (∀ ip_addresses, (get_noise_status_bulk (JArr ip_addresses) w).1 = Err failure)
  ∧ (∀ date, date_passes date → (get_noise date false w).1 = Err failure)
  ∧ (∀ date, date_passes date → (0 < recursion_limit)%nat →
       get_noise date true w
       = (Err failure,
          {| pending := rest;
             sent := sent w ++ [request_for (noise_endpoint date) (Some ∅) None] |})).
Proof.
  intros Hpending Hstatus failure.
  split; [|split; [|split]].
  - intros ip Hip. split.
    + rewrite get_noise_status_run. unfold validate_ip. rewrite Hip.
      by rewrite (_request_failure _ _ _ _ _ _ Hpending Hstatus).
    + unfold get_context. rewrite bind_lift_run. unfold validate_ip. rewrite Hip.
      by rewrite bind_run, (_request_failure _ _ _ _ _ _ Hpending Hstatus).
  - intros ips. rewrite get_noise_status_bulk_result.
    by rewrite (_request_failure _ _ _ _ _ _ Hpending Hstatus).
  - intros date Hdate. rewrite (get_noise_endpoint _ _ _ Hdate), bind_run.
    by rewrite (_request_failure _ _ _ _ _ _ Hpending Hstatus).
  - intros date Hdate Hlimit. rewrite (get_noise_endpoint _ _ _ Hdate), bind_run.
    destruct recursion_limit as [|depth]; [lia|]. cbn [_recurse truthy].
    rewrite bind_run, (_request_failure _ _ _ _ _ _ Hpending Hstatus).
    unfold after_request. by rewrite Hpending.
Qed.

Lemma mapM_Err {A B} (f : A → res B) (l : list A) (a : A) (e : error) :
  a ∈ l → f a = Err e → ∃ e', mapM f l = Err e'.
Proof.
  intros Ha Hfa. induction l as [|b l IH]; [by inversion Ha|].
  cbn [mapM]. destruct (f b) as [y|e1] eqn:Hb; [|by exists e1].
  cbn [mbind res_bind]. apply elem_of_cons in Ha as [->|Ha]; [congruence|].
  destruct (IH Ha) as [e' He']. rewrite He'. by exists e'.
Qed.

(** X8: a record without the field [code] cannot be enriched: the quick
    check raises [KeyError] for ["code"], and one such record in the list
    that the server returns makes the whole bulk look-up raise. *)
Theorem record_without_code (m : gmap string json) :
  m !! "code" = None →
  enrich (JObj m) = Err (KeyError "code")
  ∧ (∀ ip_address w,
       valid_ip ip_address = true →
       (_request (EP_NOISE_QUICK ip_address) None None w).1 = Ok (JObj m) →
       (get_noise_status ip_address w).1 = Err (KeyError "code"))
  ∧ (∀ ip_addresses w results,
       (_request EP_NOISE_MULTI None
          (Some (JObj (<["ips" := JArr (filter (λ ip_address,
             valid_ip ip_address = true) ip_addresses)]> ∅))) w).1
       = Ok (JArr results) →
       JObj m ∈ results →
       ∃ e, (get_noise_status_bulk (JArr ip_addresses) w).1 = Err e).
Proof.
  intros Hcode.
  assert (Henrich : enrich (JObj m) = Err (KeyError "code")).
  { unfold enrich, py_getitem. by rewrite Hcode. }
  split; [exact Henrich|]. split.
  - intros ip w Hip Hrequest. rewrite get_noise_status_run.
    unfold validate_ip. by rewrite Hip, Hrequest.
  - intros ips w results Hrequest Hin.
    rewrite get_noise_status_bulk_result, Hrequest.
    cbn [mbind res_bind py_iter].
    destruct (mapM_Err enrich results _ _ Hin Henrich) as [e He].
    rewrite He. by exists e.
Qed.

Lemma enrich_Ok (r r' : json) :
  enrich r = Ok r' →
  ∃ (m : gmap string json) code message,
    r = JObj m ∧ m !! "code" = Some code ∧ code_message code = Ok message
    ∧ r' = JObj (<["code_message" := JStr message]> m).
Proof.
  unfold enrich. destruct r as [| | | | |m]; try done. cbn [py_getitem].
  destruct (m !! "code") as [code|] eqn:Hcode; [|done]. cbn [mbind res_bind].
  destruct (code_message code) as [message|] eqn:Hmessage; [|done].
  intros [= <-]. by exists m, code, message.
Qed.

(** X9: enrichment changes no field but [code_message], and enriching an
    enriched record again leaves it as it is. *)
Theorem enrich_again (r r' : json) :
  enrich r = Ok r' →
  enrich r' = Ok r'
  ∧ ∀ field, field ≠ "code_message"%string →
             py_getitem r' field = py_getitem r field.
Proof.
  intros (m & code & message & -> & Hcode & Hmessage & ->)%enrich_Ok. split.
  - rewrite (enrich_run _ code); [|by rewrite lookup_insert_ne].
    rewrite Hmessage. cbn [mbind res_bind mret res_ret].
    by rewrite insert_insert_eq.
  - intros field Hfield. cbn [py_getitem]. by rewrite lookup_insert_ne.
Qed.

(** X10: the bulk look-up returns the records of the server one for one
    and in their order, each enriched: it succeeds exactly when every
    record of the list can be enriched. *)
Theorem bulk_records_in_order (ip_addresses results : list json) (w : world) :
  (_request EP_NOISE_MULTI None
     (Some (JObj (<["ips" := JArr (filter (λ ip_address,
        valid_ip ip_address = true) ip_addresses)]> ∅))) w).1
  = Ok (JArr results) →
  ∀ v, (get_noise_status_bulk (JArr ip_addresses) w).1 = Ok v
       ↔ ∃ results', v = JArr results'
           ∧ Forall2 (λ r r', enrich r = Ok r') results results'.
Proof.
  intros Hrequest v. rewrite get_noise_status_bulk_result, Hrequest.
  cbn [mbind res_bind py_iter]. split.
  - destruct (mapM enrich results) as [results'|e] eqn:Hmap; [|done].
    intros [= <-]. exists results'. split; [done|]. by apply mapM_Ok_Forall2.
  - intros (results' & -> & Hall). apply mapM_Ok_Forall2 in Hall.
    by rewrite Hall.
Qed.

(** X11: a bulk response that is an object and not a list (an error
    object, say) makes the bulk look-up raise a [TypeError], unless the
    object is empty, which is returned as it is. *)
Theorem bulk_response_object (ip_addresses : list json) (w : world)
    (m : gmap string json) :
  (_request EP_NOISE_MULTI None
     (Some (JObj (<["ips" := JArr (filter (λ ip_address,
        valid_ip ip_address = true) ip_addresses)]> ∅))) w).1
  = Ok (JObj m) →
  (get_noise_status_bulk (JArr ip_addresses) w).1
  = if decide (m = ∅) then Ok (JObj m) else Err TypeError.
Proof.
  intros Hrequest. rewrite get_noise_status_bulk_result, Hrequest.
  cbn [mbind res_bind py_iter].
  destruct (decide (m = ∅)) as [->|Hm].
  - by rewrite map_to_list_empty.
  - destruct (map_to_list m) as [|[k x] l] eqn:Hl.
    + by apply map_to_list_empty_iff in Hl.
    + reflexivity.
Qed.

Lemma code_message_known (code : string) :
  code ∈ known_codes →
  ∃ message, code_message (JStr code) = Ok message
             ∧ ∀ other, message ≠ "Code message unknown: " +:+ other.
Proof.
  unfold known_codes. rewrite !elem_of_cons, elem_of_nil.
  intros [->|[->|[->|[->|[->|[->|[->|[->|[->|[]]]]]]]]]];
    (eexists; split; [reflexivity|intros other; vm_compute; discriminate]).
Qed.

(** X12: different codes get different messages, the unknown ones
    included: the code can be told from the message. *)
Theorem code_message_injective (code1 code2 : string) :
  code_message (JStr code1) = code_message (JStr code2) → code1 = code2.
Proof.
  destruct (decide (code1 ∈ known_codes)) as [H1|H1],
           (decide (code2 ∈ known_codes)) as [H2|H2].
  - revert H1 H2. unfold known_codes. rewrite !elem_of_cons, !elem_of_nil.
    intros [->|[->|[->|[->|[->|[->|[->|[->|[->|[]]]]]]]]]]
           [->|[->|[->|[->|[->|[->|[->|[->|[->|[]]]]]]]]]];
      intros Hsame; (reflexivity || (vm_compute in Hsame; discriminate Hsame)).
  - destruct (code_message_known _ H1) as (message & -> & Hmessage).
    rewrite code_message_str, (CODE_MESSAGES_unknown _ H2). cbn [default].
    intros [= H]. by destruct (Hmessage code2).
  - destruct (code_message_known _ H2) as (message & -> & Hmessage).
    rewrite code_message_str, (CODE_MESSAGES_unknown _ H1). cbn [default].
    intros [= H]. by destruct (Hmessage code1).
  - rewrite !code_message_str, (CODE_MESSAGES_unknown _ H1),
      (CODE_MESSAGES_unknown _ H2). cbn. intros [= Hsame]. exact Hsame.
Qed.

(** X13: the context look-up hands back what the server sent, unchanged
    and without a [code_message], after one request to the context
    endpoint of the address. *)
Theorem get_context_hands_back (ip_address v : json) (w : world)
    (response : http_response) (rest : list http_response) :
  valid_ip ip_address = true →
  pending w = response :: rest →
  200 ≤ status_code response < 299 →
  json_body response = Some v →
  get_context ip_address w
  = (Ok v,
     {| pending := rest;
        sent := sent w
                ++ [request_for ("noise/context/" +:+ py_format ip_address)
                      None None] |}).
Proof.
  intros Hip Hpending Hstatus Hbody. unfold get_context.
  rewrite bind_lift_run. unfold validate_ip. rewrite Hip.
  by rewrite bind_run, (_request_success _ _ _ _ _ _ _ Hpending Hstatus Hbody).
Qed.

(** X14: without recursion [get_noise] reads nothing of the page but
    [noise_ips]: two pages with the same [noise_ips] give the same result,
    whatever their [complete] flag and their other fields say. *)
Theorem get_noise_reads_noise_ips (date : option string) (w1 w2 : world)
    (response1 response2 : http_response) (rest1 rest2 : list http_response)
    (m1 m2 : gmap string json) :
  pending w1 = response1 :: rest1 →
  pending w2 = response2 :: rest2 →
  200 ≤ status_code response1 < 299 →
  200 ≤ status_code response2 < 299 →
  json_body response1 = Some (JObj m1) →
  json_body response2 = Some (JObj m2) →
  m1 !! "noise_ips" = m2 !! "noise_ips" →
  (get_noise date false w1).1 = (get_noise date false w2).1.
Proof.
  intros Hp1 Hp2 Hs1 Hs2 Hb1 Hb2 Hips. unfold get_noise.
  rewrite !bind_lift_run.
  destruct (match date with Some _ => _ | None => _ end) as [endpoint|e];
    [|done].
  rewrite !bind_run.
  rewrite (_request_success _ _ _ _ _ _ _ Hp1 Hs1 Hb1),
    (_request_success _ _ _ _ _ _ _ Hp2 Hs2 Hb2).
  rewrite !bind_lift_run. cbn [py_getitem]. rewrite Hips.
  destruct (m2 !! "noise_ips") as [noise_ips|]; [|done].
  rewrite !bind_lift_run. by destruct (py_list_set noise_ips).
Qed.

(** X15: the two paths of [get_noise] read different fields of a page.
    Without recursion a page without [noise_ips] raises [KeyError]; with
    recursion a page without [complete] raises [KeyError], and a complete
    page ends the call with [None] whether it has [noise_ips] or not. *)
Theorem page_without_field (date : option string) (w : world)
    (response : http_response) (rest : list http_response)
    (m : gmap string json) :
  date_passes date →
  pending w = response :: rest →
  200 ≤ status_code response < 299 →
  json_body response = Some (JObj m) →
  (m !! "noise_ips" = None →
   (get_noise date false w).1 = Err (KeyError "noise_ips"))
  ∧ (m !! "complete" = None → (0 < recursion_limit)%nat →
     (get_noise date true w).1 = Err (KeyError "complete"))
  ∧ (m !! "complete" = Some (JBool true) → (0 < recursion_limit)%nat →
     (get_noise date true w).1 = Ok JNull).
Proof.
  intros Hdate Hpending Hstatus Hbody. split; [|split].
  - intros Hips. rewrite (get_noise_endpoint _ _ _ Hdate), bind_run.
    rewrite (_request_success _ _ _ _ _ _ _ Hpending Hstatus Hbody).
    rewrite bind_lift_run. cbn [py_getitem]. by rewrite Hips.
  - intros Hcomplete Hlimit.
    rewrite (get_noise_endpoint _ _ _ Hdate), bind_run.
    destruct recursion_limit as [|depth]; [lia|]. cbn [_recurse truthy].
    rewrite bind_run.
    rewrite (_request_success _ _ _ _ _ _ _ Hpending Hstatus Hbody).
    rewrite bind_lift_run. cbn [py_getitem]. by rewrite Hcomplete.
  - intros Hcomplete Hlimit.
    rewrite (get_noise_endpoint _ _ _ Hdate), bind_run.
    destruct recursion_limit as [|depth]; [lia|]. cbn [_recurse truthy].
    rewrite bind_run.
    rewrite (_request_success _ _ _ _ _ _ _ Hpending Hstatus Hbody).
    rewrite bind_lift_run. cbn [py_getitem]. by rewrite Hcomplete.
Qed.

(** * Further properties of the formatters *)

(** ** The location *)

Lemma spec_location_empty (city country country_code : string) :
  spec_location city country country_code = ""%string
  ↔ city = ""%string ∧ country = ""%string ∧ country_code = ""%string.
Proof.
  unfold spec_location.
  destruct (decide (city = "")) as [->|Hcity],
           (decide (country = "")) as [->|Hcountry],
           (decide (country_code = "")) as [->|Hcode];
    cbn [app String.concat]; split; try done;
    try (intros (? & ? & ?); done).
  all: first [destruct city; done | destruct country; done].
Qed.

Lemma get_location_text (metadata : gmap string json)
    (city country country_code : json) :
  metadata !! "city" = Some city →
  metadata !! "country" = Some country →
  metadata !! "country_code" = Some country_code →
  (city = JNull ∨ ∃ s, city = JStr s) →
  (country = JNull ∨ ∃ s, country = JStr s) →
  (country_code = JNull ∨ ∃ s, country_code = JStr s) →
  get_location (JObj metadata)
  = Ok (spec_location (text_of city) (text_of country) (text_of country_code)).
Proof.
  intros Hcity Hcountry Hcode H1 H2 H3.
  unfold get_location, py_getitem. rewrite Hcity, Hcountry, Hcode.
  cbn [mbind res_bind]. unfold spec_location.
  destruct H1 as [->|[city' ->]], H2 as [->|[country' ->]],
    H3 as [->|[code' ->]];
    cbn [text_of]; rewrite ?truthy_str; cbn [truthy];
    repeat destruct (decide (_ = ""%string)); try done.
Qed.

(** X16: a field that is [null] counts as an empty one: on a metadata
    record whose three fields are strings or [null], the location is made
    of the segments of the fields that are strings and not empty. *)
Theorem get_location_null_fields (metadata : gmap string json)
    (city country country_code : json) :
  metadata !! "city" = Some city →
  metadata !! "country" = Some country →
  metadata !! "country_code" = Some country_code →
  (city = JNull ∨ ∃ s, city = JStr s) →
  (country = JNull ∨ ∃ s, country = JStr s) →
  (country_code = JNull ∨ ∃ s, country_code = JStr s) →
  get_location (JObj metadata)
  = Ok (spec_location (text_of city) (text_of country) (text_of country_code))
  ∧ (get_location (JObj metadata) = Ok ""%string
     ↔ truthy city = false ∧ truthy country = false
       ∧ truthy country_code = false).
Proof.
  intros Hcity Hcountry Hcode H1 H2 H3.
  rewrite (get_location_text _ _ _ _ Hcity Hcountry Hcode H1 H2 H3).
  split; [done|].
  split.
  - intros [= Hempty]. apply spec_location_empty in Hempty as (E1 & E2 & E3).
    destruct H1 as [->|[? ->]], H2 as [->|[? ->]], H3 as [->|[? ->]];
      cbn [text_of] in *; subst; done.
  - intros (T1 & T2 & T3). f_equal. apply spec_location_empty.
    destruct H1 as [->|[s1 ->]], H2 as [->|[s2 ->]], H3 as [->|[s3 ->]];
      cbn [text_of]; rewrite ?truthy_str in *;
      repeat match goal with
             | H : (if decide (?s = ""%string) then false else true) = false |- _ =>
                 destruct (decide (s = ""%string)); [subst|done]
             end; done.
Qed.

(** X17: a country that is neither empty nor a string makes
    [get_location] raise a [TypeError]: the country goes into the join as
    it is, while the city and the country code are formatted first. *)
Theorem get_location_country_not_text (metadata : gmap string json)
    (city country country_code : json) :
  metadata !! "city" = Some city →
  metadata !! "country" = Some country →
  metadata !! "country_code" = Some country_code →
  truthy country = true →
  (∀ s, country ≠ JStr s) →
  get_location (JObj metadata) = Err TypeError.
Proof.
  intros Hcity Hcountry Hcode Htruthy Hnot.
  unfold get_location, py_getitem. rewrite Hcity, Hcountry, Hcode.
  cbn [mbind res_bind]. rewrite Htruthy.
  destruct country as [| | |s| |]; try by destruct (Hnot s).
  all: destruct (truthy city), (truthy country_code); reflexivity.
Qed.

(** X18: a metadata record that lacks one of the three fields makes
    [get_location] raise [KeyError] for the first that is missing, in the
    order city, country, country code. *)
Theorem get_location_missing_field (metadata : gmap string json) :
  (metadata !! "city" = None →
   get_location (JObj metadata) = Err (KeyError "city"))
  ∧ (is_Some (metadata !! "city") → metadata !! "country" = None →
     get_location (JObj metadata) = Err (KeyError "country"))
  ∧ (is_Some (metadata !! "city") → is_Some (metadata !! "country") →
     metadata !! "country_code" = None →
     get_location (JObj metadata) = Err (KeyError "country_code")).
Proof.
  unfold get_location, py_getitem. split; [|split].
  - by intros ->.
  - by intros [city ->] ->.
  - by intros [city ->] [country ->] ->.
Qed.

(** ** The renderers that derive a location *)

Lemma get_location_insert_location (metadata : gmap string json) (v : json) :
  get_location (JObj (<["location" := v]> metadata))
  = get_location (JObj metadata).
Proof.
  unfold get_location, py_getitem. by rewrite !lookup_insert_ne.
Qed.

Lemma get_location_Ok (metadata : json) (location : string) :
  get_location metadata = Ok location → ∃ m, metadata = JObj m.
Proof. destruct metadata as [| | | | |m]; try done. by exists m. Qed.

(** What [add_location] returns when it returns. *)
Lemma add_location_Ok (r r' : json) :
  add_location r = Ok r' →
  ∃ (ip_context : gmap string json) seen,
    r = JObj ip_context ∧ ip_context !! "seen" = Some seen
    ∧ ((truthy seen = false ∧ r' = r)
       ∨ (truthy seen = true
          ∧ ∃ metadata location,
              ip_context !! "metadata" = Some (JObj metadata)
              ∧ get_location (JObj metadata) = Ok location
              ∧ r' = JObj (<["metadata" :=
                              JObj (<["location" := JStr location]> metadata)]>
                             ip_context))).
Proof.
  unfold add_location. destruct r as [| | | | |ip_context]; try done.
  cbn [py_getitem].
  destruct (ip_context !! "seen") as [seen|] eqn:Hseen; [|done].
  cbn [mbind res_bind]. intros H. exists ip_context, seen.
  split; [done|]. split; [done|].
  destruct (truthy seen); [right|left; by injection H as <-].
  split; [done|].
  destruct (ip_context !! "metadata") as [metadata|] eqn:Hmetadata; [|done].
  cbn [mbind res_bind] in H.
  destruct (get_location metadata) as [location|] eqn:Hlocation; [|done].
  destruct (get_location_Ok _ _ Hlocation) as [m ->].
  cbn [mbind res_bind py_setitem] in H. injection H as <-.
  by exists m, location.
Qed.

Lemma add_location_again (r r' : json) :
  add_location r = Ok r' → add_location r' = Ok r'.
Proof.
  intros H.
  destruct (add_location_Ok _ _ H)
    as (ip_context & seen & -> & Hseen
        & [[_ ->]|[Htruthy (metadata & location & Hmetadata & Hlocation & ->)]]);
    [exact H|].
  unfold add_location. cbn [py_getitem].
  rewrite (lookup_insert_ne _ "metadata" "seen") by done.
  rewrite Hseen. cbn [mbind res_bind].
  rewrite Htruthy, lookup_insert_eq. cbn [mbind res_bind].
  rewrite get_location_insert_location, Hlocation.
  cbn [mbind res_bind py_setitem]. by rewrite !insert_insert_eq.
Qed.

Lemma mapM_fixed {A} (f : A → res A) (l : list A) :
  Forall (λ a, f a = Ok a) l → mapM f l = Ok l.
Proof.
  induction 1 as [|a l Ha _ IH]; [done|]. cbn [mapM]. by rewrite Ha, IH.
Qed.

Lemma mapM_add_location_again (l l' : list json) :
  mapM add_location l = Ok l' → mapM add_location l' = Ok l'.
Proof.
  intros H. apply mapM_fixed. apply mapM_Ok_Forall2 in H.
  induction H as [|a b l l' Hab _ IH]; constructor; [|done].
  by apply add_location_again in Hab.
Qed.

(** X19: deriving the location a second time changes nothing: the block
    of the [ip.context] renderer and the block of the [gnql.query] renderer
    leave a record that they have been through as it is. *)
Theorem locations_derived_once (r r' : json) :
  (add_location r = Ok r' → add_location r' = Ok r')
  ∧ (gnql_locations r = Ok r' → gnql_locations r' = Ok r').
Proof.
  split; [apply add_location_again|].
  intros H.
  assert (r' = r
          ∨ ∃ (gnql : gmap string json) entries entries',
              gnql !! "data" = Some (JArr entries)
              ∧ mapM add_location entries = Ok entries'
              ∧ r' = JObj (<["data" := JArr entries']> gnql))
    as [->|(gnql & entries & entries' & Hdata & Hmap & ->)].
  { revert H. unfold gnql_locations.
    destruct (py_contains r "data") as [[|]|] eqn:Hcontains;
      cbn [mbind res_bind]; [|by intros [= <-]; left|done].
    destruct r as [| | | | |gnql]; try done. cbn [py_getitem].
    destruct (gnql !! "data") as [data|] eqn:Hdata; [|done].
    cbn [mbind res_bind].
    destruct (py_iter data) as [items|] eqn:Hiter; [|done].
    cbn [mbind res_bind].
    destruct (mapM add_location items) as [items'|] eqn:Hmap; [|done].
    cbn [mbind res_bind].
    destruct data as [| | |s|entries|m]; try done;
      try (by intros [= <-]; left).
    cbn [py_iter] in Hiter. injection Hiter as <-.
    cbn [py_setitem]. intros [= <-]. right. by exists gnql, entries, items'. }
  - exact H.
  - apply mapM_add_location_again in Hmap.
    rewrite (gnql_locations_data _ entries') by apply lookup_insert_eq.
    rewrite Hmap. cbn [mbind res_bind mret res_ret].
    by rewrite insert_insert_eq.
Qed.

(** X20: a record without the field [seen], or seen but without
    [metadata], makes the [ip.context] renderer raise a [KeyError] whatever
    the template; one such entry in [data] makes the [gnql.query] renderer
    raise. *)
Theorem record_without_seen (ip_context : gmap string json) (verbose : bool) :
  (ip_context !! "seen" = None →
   ip_context_formatter (JObj ip_context) verbose = Err (KeyError "seen"))
  ∧ (∀ seen, ip_context !! "seen" = Some seen → truthy seen = true →
       ip_context !! "metadata" = None →
       ip_context_formatter (JObj ip_context) verbose
       = Err (KeyError "metadata"))
  ∧ (∀ (gnql : gmap string json) entries e,
       add_location (JObj ip_context) = Err e →
       gnql !! "data" = Some (JArr entries) →
       JObj ip_context ∈ entries →
       ∃ e', gnql_query_formatter (JObj gnql) verbose = Err e').
Proof.
  split; [|split].
  - intros Hseen. unfold ip_context_formatter, colored_output, add_location.
    cbn [py_getitem]. by rewrite Hseen.
  - intros seen Hseen Htruthy Hmetadata.
    unfold ip_context_formatter, colored_output, add_location.
    cbn [py_getitem]. rewrite Hseen. cbn [mbind res_bind].
    by rewrite Htruthy, Hmetadata.
  - intros gnql entries e Hfail Hdata Hin.
    unfold gnql_query_formatter, colored_output.
    rewrite (gnql_locations_data _ _ Hdata).
    destruct (mapM_Err add_location entries _ _ Hin Hfail) as [e' He'].
    rewrite He'. by exists e'.
Qed.

(** X21: a query result without the field [data] is rendered as it
    is, and one whose [data] is the empty list likewise. *)
Theorem gnql_without_data (gnql : gmap string json) (verbose : bool) :
  gnql !! "data" = None ∨ gnql !! "data" = Some (JArr []) →
  gnql_query_formatter (JObj gnql) verbose
  = (output ← render "gnql.txt.j2" "gnql" (JObj gnql) verbose;
     ANSI_MARKUP output).
Proof.
  intros [Hdata|Hdata]; unfold gnql_query_formatter, colored_output.
  - unfold gnql_locations. cbn [py_contains mbind res_bind].
    rewrite bool_decide_eq_false_2; [done|]. rewrite Hdata. by intros [? ?].
  - rewrite (gnql_locations_data _ _ Hdata). cbn [mapM mbind res_bind mret res_ret].
    by rewrite insert_id.
Qed.

(** X22: the table of formatters knows the three formats [json], [xml]
    and [txt] and no other; [json] and [xml] name one formatter each,
    [txt] a table by kind. *)
Theorem FORMATTERS_three_formats :
  FORMATTERS !! "json" = Some (Formatter json_formatter)
  ∧ FORMATTERS !! "xml" = Some (Formatter xml_formatter)
  ∧ (∃ table, FORMATTERS !! "txt" = Some (Formatters table))
  ∧ ∀ format, is_Some (FORMATTERS !! format)
              ↔ format ∈ ["json"; "xml"; "txt"]%string.
Proof.
  split; [reflexivity|]. split; [reflexivity|].
  split; [eexists; apply FORMATTERS_txt|].
  intros format. split.
  - intros [entry Hentry].
    destruct (decide (format ∈ ["json"; "xml"; "txt"]%string)) as [|Hout]; [done|].
    unfold FORMATTERS in Hentry.
    rewrite (not_elem_of_list_to_map_1 _ format) in Hentry; [done|exact Hout].
  - rewrite !elem_of_cons, elem_of_nil.
    intros [->|[->|[->|[]]]]; eexists; reflexivity.
Qed.

End Program.

(** * The scenarios *)

Lemma _request_status_witness :
  (_request scalar_repr "k" EP_NOISE_BULK None None
     (server [ok_response (JNum 1)])).1 = Ok (JNum 1)
  ∧ (_request scalar_repr "k" EP_NOISE_BULK None None
       (server [{| status_code := 299; content := "busy";
                   json_body := Some (JNum 1) |}])).1
    = Err (RequestFailure 299 "busy").
Proof.
  split.
  - apply (proj1 (_request_status scalar_repr "k" EP_NOISE_BULK None None
                    (server [ok_response (JNum 1)]) (ok_response (JNum 1)) []
                    eq_refl)).
    + cbn. lia.
    + reflexivity.
  - apply (proj2 (_request_status scalar_repr "k" EP_NOISE_BULK None None
                    (server [{| status_code := 299; content := "busy";
                                json_body := Some (JNum 1) |}])
                    _ [] eq_refl)).
    cbn. lia.
Defined.

(** Scenario 1: a quick check that returns the code [0x01]. *)
Lemma enrich_code_message_witness :
  ∃ message : string,
    (get_noise_status scalar_repr is_ipv4 "k" (JStr "8.8.8.8")
       (server [ok_response (JObj quick_0x01)])).1
    = Ok (JObj (<["code_message" := JStr message]> quick_0x01))
    ∧ message = "IP has been observed by the GreyNoise sensor network"%string.
Proof.
  destruct (enrich_code_message scalar_repr is_ipv4 "k" quick_0x01 (JStr "0x01")
              eq_refl eq_refl)
    as (message & _ & _ & H01 & _ & _ & _ & _ & _ & _ & _ & _ & Hstatus & _).
  exists message. split.
  - apply Hstatus; reflexivity.
  - apply H01. reflexivity.
Defined.

(** The message for [0x01] is not the one of the status code dictionary,
    ["IP has been observed by the sensor network"]. *)
Lemma code_message_0x01_differs :
  ∃ result : gmap string json,
    (get_noise_status scalar_repr is_ipv4 "k" (JStr "8.8.8.8")
       (server [ok_response (JObj quick_0x01)])).1
    = Ok (JObj result)
    ∧ result !! "code" = Some (JStr "0x01")
    ∧ result !! "code_message"
      ≠ Some (JStr "IP has been observed by the sensor network").
Proof.
  eexists. split; [reflexivity|]. split; [reflexivity|].
  vm_compute. discriminate.
Qed.

(** A dump of one page with an address twice, without recursion. *)
Lemma get_noise_once_witness :
  ∃ results : list json,
    get_noise scalar_repr (λ l, l) 1000 (λ _, true) "k" None false
      (server [noise_page ["1.2.3.4"; "5.6.7.8"; "1.2.3.4"] true])
    = (Ok (JObj (<["result_count" := JNum (Z.of_nat (length results))]>
                   (<["results" := JArr results]> ∅))),
       {| pending := [];
          sent := [request_for "k" EP_NOISE_BULK None None] |})
    ∧ NoDup results
    ∧ (JStr "1.2.3.4" ∈ results ∧ JStr "5.6.7.8" ∈ results).
Proof.
  destruct (get_noise_once scalar_repr (λ l, l) (λ l, reflexivity _) 1000
              (λ _, true) "k" None
              (server [noise_page ["1.2.3.4"; "5.6.7.8"; "1.2.3.4"] true])
              (noise_page ["1.2.3.4"; "5.6.7.8"; "1.2.3.4"] true) []
              (<["complete" := JBool true]>
                 (<["noise_ips" := JArr (JStr <$> ["1.2.3.4"; "5.6.7.8"; "1.2.3.4"])]> ∅))
              (JStr <$> ["1.2.3.4"; "5.6.7.8"; "1.2.3.4"]))
    as (results & Hrun & Hnodup & _ & _ & Hstr).
  - intros d [=].
  - reflexivity.
  - cbn. lia.
  - reflexivity.
  - reflexivity.
  - reflexivity.
  - exists results. split; [exact Hrun|]. split; [exact Hnodup|].
    split; apply Hstr; cbn; rewrite !elem_of_cons; auto.
Defined.

(** Scenario 4: three pages, the last one complete, with recursion. *)
Lemma get_noise_recurse_None_witness :
  get_noise scalar_repr (λ l, l) 1000 (λ _, true) "k" None true
    (server [noise_page ["a"; "b"] false; noise_page ["b"; "c"] false;
             noise_page ["d"] true])
  = (Ok JNull,
     {| pending := [];
        sent := replicate 3 (request_for "k" EP_NOISE_BULK (Some ∅) None) |}).
Proof.
  apply (get_noise_recurse_None scalar_repr (λ l, l) 1000 (λ _, true) "k" None
           (server [noise_page ["a"; "b"] false; noise_page ["b"; "c"] false;
                    noise_page ["d"] true])
           [noise_page ["a"; "b"] false; noise_page ["b"; "c"] false]
           (noise_page ["d"] true) []).
  - intros d [=].
  - repeat constructor; eexists; (split; [cbn; lia|]); eexists;
      (split; [reflexivity|]); split; reflexivity.
  - eexists. split; [cbn; lia|]. eexists. split; [reflexivity|].
    split; reflexivity.
  - reflexivity.
  - cbn. lia.
Defined.


(** Scenario 6: the location of a context that was seen, and a kind that
    has no text renderer. *)
Lemma get_location_strings_witness :
  get_location scalar_repr (JObj paris) = Ok "Paris, France (FR)"%string.
Proof.
  exact (proj1 (get_location_strings scalar_repr paris "Paris" "France" "FR"
                  eq_refl eq_refl eq_refl)).
Defined.

Lemma add_location_when_seen_witness :
  ∃ metadata' ip_context' : gmap string json,
    add_location scalar_repr (JObj paris_context) = Ok (JObj ip_context')
    ∧ ip_context' !! "metadata" = Some (JObj metadata')
    ∧ metadata' !! "location" = Some (JStr "Paris, France (FR)")
    ∧ metadata' !! "city" = Some (JStr "Paris")
    ∧ ip_context' !! "seen" = Some (JBool true).
Proof.
  destruct (add_location_when_seen scalar_repr (λ _ _ _ _, Ok ""%string) Ok
              paris_context (JBool true) eq_refl)
    as (_ & Hseen & _).
  destruct (Hseen eq_refl paris "Paris, France (FR)"%string eq_refl eq_refl)
    as (metadata' & ip_context' & Hrun & Hmetadata & Hlocation & Hfields & Hrecord).
  exists metadata', ip_context'.
  split; [exact Hrun|]. split; [exact Hmetadata|]. split; [exact Hlocation|].
  split.
  - rewrite Hfields; [reflexivity|discriminate].
  - rewrite Hrecord; [reflexivity|discriminate].
Defined.

Lemma txt_formatters_six_witness :
  format_result scalar_repr (λ _ _ _, ""%string) (λ _, ""%string) Ok
    (λ _ _ _ _, Ok ""%string) Ok "txt" "unknown.kind" (JObj paris_context) false
  = Err (DispatchError "txt" "unknown.kind").
Proof.
  destruct (txt_formatters_six scalar_repr (λ _ _ _, ""%string) (λ _, ""%string)
              Ok (λ _ _ _ _, Ok ""%string) Ok)
    as (table & _ & _ & _ & _ & _ & _ & _ & _ & Hunknown & _).
  apply Hunknown. unfold txt_kinds. rewrite !not_elem_of_cons.
  repeat split; try discriminate. apply not_elem_of_nil.
Defined.

(** Scenario 2: a code that the table does not know. *)
Example quick_check_unknown_code :
  (get_noise_status scalar_repr is_ipv4 "k" (JStr "8.8.8.8")
     (server [ok_response (JObj (<["code" := JStr "0xFF"]> ∅))])).1
  = Ok (JObj (<["code_message" := JStr "Code message unknown: 0xFF"]>
                (<["code" := JStr "0xFF"]> ∅))).
Proof. reflexivity. Qed.

(** Scenario 3: the bulk look-up drops the entry that is no address. *)
Example bulk_status_drops_invalid :
  body <$> sent (get_noise_status_bulk scalar_repr is_ipv4 "k"
                   (JArr [JStr "8.8.8.8"; JStr "not-an-ip"; JStr "1.1.1.1"])
                   (server [ok_response (JArr [])])).2
  = [Some (JObj (<["ips" := JArr [JStr "8.8.8.8"; JStr "1.1.1.1"]]> ∅))].
Proof. reflexivity. Qed.

(** Scenario 5: an address that is not valid fails before any request. *)
Example quick_check_invalid_address :
  get_noise_status scalar_repr is_ipv4 "k" (JStr "999.999.999.999")
    (server [ok_response (JObj quick_0x01)])
  = (Err (ValueError "Invalid IP address"),
     server [ok_response (JObj quick_0x01)]).
Proof. reflexivity. Qed.

(** A bulk look-up whose input is not a list fails before any request. *)
Example bulk_status_not_a_list :
  get_noise_status_bulk scalar_repr is_ipv4 "k" (JStr "8.8.8.8") (server [])
  = (Err (ValueError "`ip_addresses` must be a list"), server []).
Proof. reflexivity. Qed.

(** * Runs of the further properties *)

Lemma invalid_address_no_request_witness :
  ∃ msg,
    get_noise_status scalar_repr is_ipv4 "k" (JStr "999.999.999.999")
      (server [ok_response (JObj quick_0x01)])
    = (Err (ValueError msg), server [ok_response (JObj quick_0x01)])
    ∧ get_context scalar_repr is_ipv4 "k" (JStr "999.999.999.999")
        (server [ok_response (JObj quick_0x01)])
      = (Err (ValueError msg), server [ok_response (JObj quick_0x01)]).
Proof.
  apply (invalid_address_no_request scalar_repr is_ipv4 "k"
           (JStr "999.999.999.999")).
  reflexivity.
Defined.

Lemma bulk_input_must_be_list_witness :
  get_noise_status_bulk scalar_repr is_ipv4 "k" (JStr "8.8.8.8") (server [])
  = (Err (ValueError "`ip_addresses` must be a list"), server []).
Proof.
  apply (bulk_input_must_be_list scalar_repr is_ipv4 "k" (JStr "8.8.8.8")).
  intros l. discriminate.
Defined.

Lemma invalid_date_no_request_witness :
  (∃ msg,
     get_noise scalar_repr (λ l, l) 1000 (λ _, false) "k" (Some "tomorrow"%string)
       true (server [noise_page ["1.2.3.4"] true])
     = (Err (ValueError msg), server [noise_page ["1.2.3.4"] true]))
  ∧ get_noise scalar_repr (λ l, l) 1000 (λ _, false) "k" (Some ""%string)
      false (server [noise_page ["1.2.3.4"] true])
    = get_noise scalar_repr (λ l, l) 1000 (λ _, false) "k" None
        false (server [noise_page ["1.2.3.4"] true]).
Proof.
  split.
  - apply (invalid_date_no_request scalar_repr (λ l, l) 1000 (λ _, false) "k"
             "tomorrow" true); [reflexivity|discriminate].
  - apply (invalid_date_no_request scalar_repr (λ l, l) 1000 (λ _, false) "k"
             "" false); reflexivity.
Defined.

Lemma recursion_accumulates_key_name_witness :
  ∃ n, [JStr "noise_ips"; JStr "noise_ips"]
       = [] ++ replicate n (JStr "noise_ips").
Proof.
  destruct (recursion_accumulates_key_name scalar_repr "k" 5
              {| cfg_endpoint := "noise/bulk"; cfg_params := ∅;
                 cfg_results := []; cfg_data_key := "noise_ips" |}
              {| cfg_endpoint := "noise/bulk"; cfg_params := ∅;
                 cfg_results := [JStr "noise_ips"; JStr "noise_ips"];
                 cfg_data_key := "noise_ips" |}
              (JBool false) JNull
              (server [noise_page ["a"; "b"] false; noise_page ["b"; "c"] false;
                       noise_page ["d"] true])
              {| pending := [];
                 sent := replicate 3 (request_for "k" "noise/bulk" (Some ∅) None) |})
    as (_ & _ & _ & _ & n & Hresults & _).
  - reflexivity.
  - exists n. exact Hresults.
Defined.

Lemma request_failure_reaches_caller_witness :
  (get_noise_status scalar_repr is_ipv4 "k" (JStr "8.8.8.8")
     (server [unavailable])).1
  = Err (RequestFailure 503 "unavailable")
  ∧ get_noise scalar_repr (λ l, l) 1000 (λ _, true) "k" None true
      (server [unavailable; noise_page ["d"] true])
    = (Err (RequestFailure 503 "unavailable"),
       {| pending := [noise_page ["d"] true];
          sent := [request_for "k" EP_NOISE_BULK (Some ∅) None] |}).
Proof.
  destruct (request_failure_reaches_caller scalar_repr (λ l, l) 1000 is_ipv4
              (λ _, true) "k" (server [unavailable; noise_page ["d"] true])
              unavailable [noise_page ["d"] true] eq_refl)
    as (_ & _ & _ & Hrecurse); [cbn; lia|].
  destruct (request_failure_reaches_caller scalar_repr (λ l, l) 1000 is_ipv4
              (λ _, true) "k" (server [unavailable]) unavailable [] eq_refl)
    as (Hstatus & _); [cbn; lia|].
  split.
  - apply Hstatus. reflexivity.
  - apply (Hrecurse None); [intros d [=]|lia].
Defined.

Lemma record_without_code_witness :
  enrich scalar_repr (JObj (<["ip" := JStr "8.8.8.8"]> ∅)) = Err (KeyError "code").
Proof.
  apply (record_without_code scalar_repr is_ipv4 "k" (<["ip" := JStr "8.8.8.8"]> ∅)).
  reflexivity.
Defined.

Lemma enrich_again_witness :
  enrich scalar_repr
    (JObj (<["code_message" :=
              JStr "IP has been observed by the GreyNoise sensor network"]>
             quick_0x01))
  = Ok (JObj (<["code_message" :=
                 JStr "IP has been observed by the GreyNoise sensor network"]>
                quick_0x01)).
Proof.
  apply (enrich_again scalar_repr (JObj quick_0x01)). reflexivity.
Defined.

Lemma bulk_records_in_order_witness :
  ∃ results',
    JArr [JObj (<["code_message" := JStr "IP is invalid"]>
                  (<["code" := JStr "0x07"]> ∅))]
    = JArr results'
    ∧ Forall2 (λ r r', enrich scalar_repr r = Ok r')
              [JObj (<["code" := JStr "0x07"]> ∅)] results'.
Proof.
  apply (bulk_records_in_order scalar_repr is_ipv4 "k" [JStr "not-an-ip"]
           [JObj (<["code" := JStr "0x07"]> ∅)]
           (server [ok_response (JArr [JObj (<["code" := JStr "0x07"]> ∅)])])).
  - reflexivity.
  - reflexivity.
Defined.

Lemma bulk_response_object_witness :
  (get_noise_status_bulk scalar_repr is_ipv4 "k" (JArr [JStr "8.8.8.8"])
     (server [ok_response (JObj (<["error" := JStr "quota"]> ∅))])).1
  = Err TypeError.
Proof.
  rewrite (bulk_response_object scalar_repr is_ipv4 "k" [JStr "8.8.8.8"]
             (server [ok_response (JObj (<["error" := JStr "quota"]> ∅))])
             (<["error" := JStr "quota"]> ∅) eq_refl).
  destruct (decide _) as [Hempty|]; [|reflexivity].
  apply (f_equal (λ m : gmap string json, m !! "error")) in Hempty.
  vm_compute in Hempty. discriminate Hempty.
Defined.

Lemma code_message_injective_witness : "0x05"%string = "0x05"%string.
Proof.
  apply (code_message_injective scalar_repr "0x05" "0x05"). reflexivity.
Defined.

Lemma get_context_hands_back_witness :
  get_context scalar_repr is_ipv4 "k" (JStr "8.8.8.8")
    (server [ok_response (JObj paris_context)])
  = (Ok (JObj paris_context),
     {| pending := [];
        sent := [request_for "k" "noise/context/8.8.8.8" None None] |}).
Proof.
  apply (get_context_hands_back scalar_repr is_ipv4 "k" (JStr "8.8.8.8")
           (JObj paris_context) (server [ok_response (JObj paris_context)])
           (ok_response (JObj paris_context)) []).
  - reflexivity.
  - reflexivity.
  - cbn. lia.
  - reflexivity.
Defined.

Lemma get_noise_reads_noise_ips_witness :
  (get_noise scalar_repr (λ l, l) 1000 (λ _, true) "k" None false
     (server [noise_page ["a"; "b"] true])).1
  = (get_noise scalar_repr (λ l, l) 1000 (λ _, true) "k" None false
       (server [noise_page ["a"; "b"] false; noise_page ["c"] true])).1.
Proof.
  eapply (get_noise_reads_noise_ips scalar_repr (λ l, l) 1000 (λ _, true) "k"
            None _ _ (noise_page ["a"; "b"] true) (noise_page ["a"; "b"] false)
            [] [noise_page ["c"] true]).
  - reflexivity.
  - reflexivity.
  - cbn. lia.
  - cbn. lia.
  - reflexivity.
  - reflexivity.
  - reflexivity.
Defined.

Lemma page_without_field_witness :
  (get_noise scalar_repr (λ l, l) 1000 (λ _, true) "k" None true
     (server [ok_response (JObj (<["noise_ips" := JArr []]> ∅))])).1
  = Err (KeyError "complete").
Proof.
  eapply (page_without_field scalar_repr (λ l, l) 1000 (λ _, true) "k" None
            (server [ok_response (JObj (<["noise_ips" := JArr []]> ∅))])).
  - intros d [=].
  - reflexivity.
  - cbn. lia.
  - reflexivity.
  - reflexivity.
  - lia.
Defined.

Lemma get_location_null_fields_witness :
  get_location scalar_repr (JObj france) = Ok "France (FR)"%string.
Proof.
  apply (get_location_null_fields scalar_repr france JNull (JStr "France")
           (JStr "FR")); try reflexivity; eauto.
Defined.

Lemma get_location_country_not_text_witness :
  get_location scalar_repr
    (JObj (<["country" := JNum 33]> paris)) = Err TypeError.
Proof.
  apply (get_location_country_not_text scalar_repr
           (<["country" := JNum 33]> paris) (JStr "Paris") (JNum 33) (JStr "FR"));
    try reflexivity.
  intros s. discriminate.
Defined.

Lemma get_location_missing_field_witness :
  get_location scalar_repr (JObj (<["city" := JStr "Paris"]> ∅))
  = Err (KeyError "country").
Proof.
  apply (get_location_missing_field scalar_repr (<["city" := JStr "Paris"]> ∅)).
  - eexists. reflexivity.
  - reflexivity.
Defined.

Lemma locations_derived_once_witness :
  add_location scalar_repr
    (JObj (<["metadata" := JObj (<["location" := JStr "Paris, France (FR)"]> paris)]>
             paris_context))
  = Ok (JObj (<["metadata" := JObj (<["location" := JStr "Paris, France (FR)"]> paris)]>
                paris_context)).
Proof.
  apply (locations_derived_once scalar_repr (JObj paris_context)). reflexivity.
Defined.

Lemma record_without_seen_witness :
  ip_context_formatter scalar_repr echo_render Ok (JObj paris) false
  = Err (KeyError "seen").
Proof.
  apply (record_without_seen scalar_repr echo_render Ok paris false).
  reflexivity.
Defined.

Lemma gnql_without_data_witness :
  gnql_query_formatter scalar_repr echo_render Ok
    (JObj (<["count" := JNum 0]> ∅)) true
  = Ok "gnql.txt.j2"%string.
Proof.
  apply (gnql_without_data scalar_repr echo_render Ok (<["count" := JNum 0]> ∅) true).
  left. reflexivity.
Defined.

(** The characters of a text are its code points, not its bytes. *)
Example chars_code_points :
  chars "" = [] ∧ chars "ab" = [JStr "a"; JStr "b"]
  ∧ length (chars "é") = 1%nat ∧ chars "é!" = [JStr "é"; JStr "!"].
Proof. repeat split; reflexivity. Qed.
